(** * Influencerium backend: RBAC tables and the session service

  A shallow embedding of
  - [src/middleware/rbac.js]  (roles, permissions, decision functions),
  - the permission middleware's minimum-role gate ([requireMinRole]),
  - [src/services/session.js] (the session store service) together with
    the [sessions] and [users] tables of [src/db/migrations.js].

  JavaScript object literals are kept as association lists in insertion
  order, because [Object.values] depends on that order, and a property
  read falls back to [Object.prototype] as it does in the language.  A
  [const] is a binding that is uninitialised until its declaration has
  been evaluated; each function is embedded as its body reads, over the
  bindings it names. *)

From Stdlib Require Import List String Ascii ZArith NArith Lia Bool Arith.
Import ListNotations.

Open Scope string_scope.

(** ** JavaScript values met by the code *)
Module Js.

(** Objects that a property read can return without the program having
    put them there: a built-in function, or [Object.prototype] itself. *)
Inductive builtin : Type :=
| Native (name : string)
| ObjectPrototype.

(** The result of evaluating an expression that is either a value of the
    expected type or one of the inherited built-ins. *)
Inductive value (A : Type) : Type :=
| Val (a : A)
| Builtin (b : builtin).
Arguments Val {A} a.
Arguments Builtin {A} b.

(** A field read from a record coming from outside (a request user, a
    database row): absent, [null], or a string. *)
Inductive field : Type :=
| Missing
| Null
| Str (s : string).

(** A completion: the call returns or throws. *)
Inductive error : Type :=
| TypeError
| ReferenceError.

Inductive completion (A : Type) : Type :=
| Return (a : A)
| Throw (e : error).
Arguments Return {A} a.
Arguments Throw {A} e.

(** Sequencing: the first throw ends the evaluation. *)
Definition bind {A B : Type} (c : completion A) (k : A -> completion B)
  : completion B :=
  match c with
  | Return a => k a
  | Throw e => Throw e
  end.

(** A [const] binding of a scope.  From the start of the scope until its
    declaration has been evaluated the binding is uninitialised, and
    reading it throws a [ReferenceError]; a declaration whose initialiser
    throws leaves it uninitialised. *)
Inductive binding (A : Type) : Type :=
| Uninitialised
| Initialised (a : A).
Arguments Uninitialised {A}.
Arguments Initialised {A} a.

Definition read {A : Type} (b : binding A) : completion A :=
  match b with
  | Initialised a => Return a
  | Uninitialised => Throw ReferenceError
  end.

(** [const x = initialiser;] *)
Definition declare {A : Type} (initialiser : completion A) : binding A :=
  match initialiser with
  | Return a => Initialised a
  | Throw _ => Uninitialised
  end.

(** An object literal: own properties, in insertion order. *)
Definition object (A : Type) : Type := list (string * A).

Fixpoint own {A : Type} (o : object A) (key : string) : option A :=
  match o with
  | [] => None
  | (k, v) :: rest => if String.eqb k key then Some v else own rest key
  end.

(** [Object.values(o)] *)
Definition Object_values {A : Type} (o : object A) : list A := map snd o.

(** The properties of [Object.prototype], which every object literal
    inherits.  [constructor] is the function [Object]; [__proto__] is an
    accessor that yields the prototype of the receiver, here
    [Object.prototype]. *)
Definition Object_prototype : object builtin :=
  [ ("constructor", Native "Object");
    ("__defineGetter__", Native "__defineGetter__");
    ("__defineSetter__", Native "__defineSetter__");
    ("hasOwnProperty", Native "hasOwnProperty");
    ("__lookupGetter__", Native "__lookupGetter__");
    ("__lookupSetter__", Native "__lookupSetter__");
    ("isPrototypeOf", Native "isPrototypeOf");
    ("propertyIsEnumerable", Native "propertyIsEnumerable");
    ("toString", Native "toString");
    ("valueOf", Native "valueOf");
    ("__proto__", ObjectPrototype);
    ("toLocaleString", Native "toLocaleString") ].

(** [o[key]]: own property first, then the prototype; [None] is
    [undefined]. *)
Definition get {A : Type} (o : object A) (key : string) : option (value A) :=
  match own o key with
  | Some a => Some (Val a)
  | None =>
      match own Object_prototype key with
      | Some b => Some (Builtin b)
      | None => None
      end
  end.

(** Truthiness of a field: only a non-empty string is truthy. *)
Definition truthy_field (f : field) : bool :=
  match f with
  | Str s => negb (String.eqb s "")
  | Missing | Null => false
  end.

(** The property key a field converts to when used as [o[field]]. *)
Definition to_key (f : field) : string :=
  match f with
  | Str s => s
  | Null => "null"
  | Missing => "undefined"
  end.

(** [String(b)] for a built-in: the source text of a native function, or
    the tag of a plain object. *)
Definition builtin_to_string (b : builtin) : string :=
  match b with
  | Native name => "function " ++ name ++ "() { [native code] }"
  | ObjectPrototype => "[object Object]"
  end.

(** [a >= b] where each side is a number or an inherited built-in.  A
    built-in converts to a string that is not a numeric literal, so against
    a number the comparison is with [NaN] and is false; two built-ins
    compare as strings. *)
Definition ge (a b : value Z) : bool :=
  match a, b with
  | Val x, Val y => (y <=? x)%Z
  | Val _, Builtin _ => false
  | Builtin _, Val _ => false
  | Builtin x, Builtin y =>
      negb (String.ltb (builtin_to_string x) (builtin_to_string y))
  end.

(** [xs.includes(x)] where [xs] should be an array of strings: a built-in
    has no [includes] property, and calling [undefined] throws. *)
Definition includes (xs : value (list string)) (x : string)
  : completion bool :=
  match xs with
  | Val l => Return (existsb (String.eqb x) l)
  | Builtin _ => Throw TypeError
  end.

(** [l.some(cb)] and [l.every(cb)] with a callback that may throw. *)
Fixpoint some {A : Type} (cb : A -> completion bool) (l : list A)
  : completion bool :=
  match l with
  | [] => Return false
  | x :: rest =>
      match cb x with
      | Throw e => Throw e
      | Return true => Return true
      | Return false => some cb rest
      end
  end.

Fixpoint every {A : Type} (cb : A -> completion bool) (l : list A)
  : completion bool :=
  match l with
  | [] => Return true
  | x :: rest =>
      match cb x with
      | Throw e => Throw e
      | Return false => Return false
      | Return true => every cb rest
      end
  end.

End Js.

(** ** Roles and permissions configuration ([src/middleware/rbac.js]) *)
Module Rbac.
Import Js.

Definition ROLES : object string :=
  [ ("USER", "user");
    ("MODERATOR", "moderator");
    ("ADMIN", "admin");
    ("SUPER_ADMIN", "super_admin") ].

Definition USER : string := "user".
Definition MODERATOR : string := "moderator".
Definition ADMIN : string := "admin".
Definition SUPER_ADMIN : string := "super_admin".

Definition USER_READ := "user:read".
Definition USER_UPDATE := "user:update".
Definition USER_DELETE := "user:delete".
Definition USER_MANAGE := "user:manage".
Definition INFLUENCER_READ := "influencer:read".
Definition INFLUENCER_CREATE := "influencer:create".
Definition INFLUENCER_UPDATE := "influencer:update".
Definition INFLUENCER_DELETE := "influencer:delete".
Definition CAMPAIGN_READ := "campaign:read".
Definition CAMPAIGN_CREATE := "campaign:create".
Definition CAMPAIGN_UPDATE := "campaign:update".
Definition CAMPAIGN_DELETE := "campaign:delete".
Definition MODEL_READ := "model:read".
Definition MODEL_CREATE := "model:create".
Definition MODEL_UPDATE := "model:update".
Definition MODEL_DELETE := "model:delete".
Definition ANALYTICS_READ := "analytics:read".
Definition ANALYTICS_EXPORT := "analytics:export".
Definition ADMIN_ACCESS := "admin:access".
Definition SYSTEM_CONFIG := "system:config".
Definition ROLE_MANAGE := "role:manage".

Definition PERMISSIONS : object string :=
  [ ("USER_READ", USER_READ);
    ("USER_UPDATE", USER_UPDATE);
    ("USER_DELETE", USER_DELETE);
    ("USER_MANAGE", USER_MANAGE);
    ("INFLUENCER_READ", INFLUENCER_READ);
    ("INFLUENCER_CREATE", INFLUENCER_CREATE);
    ("INFLUENCER_UPDATE", INFLUENCER_UPDATE);
    ("INFLUENCER_DELETE", INFLUENCER_DELETE);
    ("CAMPAIGN_READ", CAMPAIGN_READ);
    ("CAMPAIGN_CREATE", CAMPAIGN_CREATE);
    ("CAMPAIGN_UPDATE", CAMPAIGN_UPDATE);
    ("CAMPAIGN_DELETE", CAMPAIGN_DELETE);
    ("MODEL_READ", MODEL_READ);
    ("MODEL_CREATE", MODEL_CREATE);
    ("MODEL_UPDATE", MODEL_UPDATE);
    ("MODEL_DELETE", MODEL_DELETE);
    ("ANALYTICS_READ", ANALYTICS_READ);
    ("ANALYTICS_EXPORT", ANALYTICS_EXPORT);
    ("ADMIN_ACCESS", ADMIN_ACCESS);
    ("SYSTEM_CONFIG", SYSTEM_CONFIG);
    ("ROLE_MANAGE", ROLE_MANAGE) ].

(** [[...x, p1, ..., pn]] starts by iterating [x]: an array gives its
    elements, [undefined] and a function are not iterable. *)
Definition spread (x : option (value (list string)))
  : completion (list string) :=
  match x with
  | Some (Val l) => Return l
  | Some (Builtin _) | None => Throw TypeError
  end.

(** [v || []]: arrays and built-ins are truthy, only [undefined] takes the
    default. *)
Definition or_empty_array (v : option (value (list string)))
  : value (list string) :=
  match v with
  | Some v => v
  | None => Val []
  end.

(** The object literal of lines 51-82, in a scope where the two names it
    spreads are bound as given.  The entries are evaluated in source
    order; the [user] entry and [Object.values(PERMISSIONS)] read no
    binding that can be uninitialised. *)
Definition ROLE_PERMISSIONS_literal
  (ROLES_USER_PERMISSIONS ROLES_MODERATOR_PERMISSIONS
     : binding (option (value (list string))))
  : completion (object (list string)) :=
  bind (bind (read ROLES_USER_PERMISSIONS) spread) (fun user_permissions =>
  bind (bind (read ROLES_MODERATOR_PERMISSIONS) spread)
    (fun moderator_permissions =>
  Return
    [ (USER,
       [ USER_READ; USER_UPDATE;
         INFLUENCER_READ; INFLUENCER_CREATE; INFLUENCER_UPDATE;
         CAMPAIGN_READ; CAMPAIGN_CREATE; CAMPAIGN_UPDATE;
         MODEL_READ; MODEL_CREATE; MODEL_UPDATE;
         ANALYTICS_READ ]);
      (MODERATOR,
       (user_permissions
          ++ [ INFLUENCER_DELETE; CAMPAIGN_DELETE; MODEL_DELETE;
               ANALYTICS_EXPORT ])%list);
      (ADMIN,
       (moderator_permissions ++ [ USER_MANAGE; ADMIN_ACCESS ])%list);
      (SUPER_ADMIN, Object_values PERMISSIONS) ])).

(** [const ROLE_PERMISSIONS = { ... };] (line 51).  The names it spreads
    are [const]s declared at lines 85 and 86, below the literal, so they
    are uninitialised when the literal is evaluated. *)
Definition ROLE_PERMISSIONS : binding (object (list string)) :=
  declare (ROLE_PERMISSIONS_literal Uninitialised Uninitialised).

(** Lines 85-87: [const ROLES_USER_PERMISSIONS =
    ROLE_PERMISSIONS[ROLES.USER];] and its two siblings. *)
Definition ROLES_USER_PERMISSIONS
  : binding (option (value (list string))) :=
  declare (bind (read ROLE_PERMISSIONS) (fun table => Return (get table USER))).

Definition ROLES_MODERATOR_PERMISSIONS
  : binding (option (value (list string))) :=
  declare
    (bind (read ROLE_PERMISSIONS) (fun table => Return (get table MODERATOR))).

Definition ROLES_ADMIN_PERMISSIONS
  : binding (option (value (list string))) :=
  declare
    (bind (read ROLE_PERMISSIONS) (fun table => Return (get table ADMIN))).

(** [return ROLE_PERMISSIONS[role] || [];] *)
Definition getRolePermissions (role : string)
  : completion (value (list string)) :=
  bind (read ROLE_PERMISSIONS)
    (fun table => Return (or_empty_array (get table role))).

Definition roleHasPermission (role permission : string) : completion bool :=
  bind (getRolePermissions role)
    (fun permissions => includes permissions permission).

(** The user object handed to the decision functions: [None] is a
    [null]/[undefined] user. *)
Record user : Type := mkUser {
  user_id : field;
  user_role : field
}.

Definition userHasPermission (u : option user) (permission : string)
  : completion bool :=
  match u with
  | None => Return false
  | Some u =>
      if negb (truthy_field (user_role u)) then Return false
      else
        bind (getRolePermissions (to_key (user_role u)))
          (fun permissions => includes permissions permission)
  end.

Definition userHasAnyPermission (u : option user)
  (permissionList : list string) : completion bool :=
  match u with
  | None => Return false
  | Some u =>
      if negb (truthy_field (user_role u)) then Return false
      else
        bind (getRolePermissions (to_key (user_role u)))
          (fun permissions =>
             some (fun p => includes permissions p) permissionList)
  end.

Definition userHasAllPermissions (u : option user)
  (permissionList : list string) : completion bool :=
  match u with
  | None => Return false
  | Some u =>
      if negb (truthy_field (user_role u)) then Return false
      else
        bind (getRolePermissions (to_key (user_role u)))
          (fun permissions =>
             every (fun p => includes permissions p) permissionList)
  end.

Definition getAvailableRoles : list string := Object_values ROLES.

Definition isValidRole (role : string) : bool :=
  existsb (String.eqb role) (Object_values ROLES).

Definition ROLE_HIERARCHY : object Z :=
  [ (USER, 1%Z); (MODERATOR, 2%Z); (ADMIN, 3%Z); (SUPER_ADMIN, 4%Z) ].

(** [ROLE_HIERARCHY[role] || 0]: the number [0] is falsy, every other
    number and every built-in is truthy. *)
Definition level (role : string) : value Z :=
  match get ROLE_HIERARCHY role with
  | Some (Val n) => if (n =? 0)%Z then Val 0%Z else Val n
  | Some (Builtin b) => Builtin b
  | None => Val 0%Z
  end.

Definition isRoleHigherOrEqual (role1 role2 : string) : bool :=
  let level1 := level role1 in
  let level2 := level role2 in
  ge level1 level2.

(** *** The minimum-role gate of the permission middleware

    What the callback run after authentication decides for the
    authenticated [req.user]. *)
Inductive decision : Type :=
| Next
| AuthorizationError (message : string).

Definition requireMinRole (minimumRole : string) (req_user : user)
  : decision :=
  let userRole := user_role req_user in
  let minRoleLevel := level minimumRole in
  let userRoleLevel := level (to_key userRole) in
  if ge userRoleLevel minRoleLevel then Next
  else AuthorizationError
         ("Access denied. Minimum role required: " ++ minimumRole).

(** [big] holds every element of [small] and one more. *)
Definition strict_superset (big small : list string) : Prop :=
  incl small big /\ exists p, In p big /\ ~ In p small.

(** A role string that names no property of an object literal at all,
    neither own nor inherited. *)
Definition plain_unknown (role : string) : Prop :=
  isValidRole role = false /\ own Object_prototype role = None.


Definition strict_supersetb (big small : list string) : bool :=
  forallb (fun p => existsb (String.eqb p) big) small
  && existsb (fun p => negb (existsb (String.eqb p) small)) big.


End Rbac.

(** ** The [users] and [sessions] tables ([src/db/migrations.js]) *)
Module Store.

(** A [UUID] column value; the store compares UUIDs by value. *)
Definition uuid : Type := N.
Bind Scope N_scope with uuid.

(** A [TIMESTAMP], as milliseconds on the clock that [NOW()] and
    [Date.now()] read. *)
Definition timestamp : Type := Z.
Bind Scope Z_scope with timestamp.

(** The columns of [users] that the session queries read. *)
Record users_row : Type := mkUsersRow {
  u_id : uuid;
  u_name : string;
  u_email : string;
  u_role : option string;
  u_status : option string
}.

(** A row of [sessions]; a column that the schema lets be [NULL] is an
    [option]. *)
Record sessions_row : Type := mkSessionsRow {
  id : uuid;
  user_id : option uuid;
  session_token : string;
  ip_address : option string;
  user_agent : option string;
  device_info : option string;
  status : option string;
  expires_at : timestamp;
  created_at : option timestamp;
  last_active_at : option timestamp;
  revoked_at : option timestamp
}.

Record database : Type := mkDatabase {
  users : list users_row;
  sessions : list sessions_row
}.

(** Errors the store raises; the service lets them through. *)
Inductive store_error : Type :=
| unique_violation
| foreign_key_violation
| invalid_row_count_in_limit_clause
| invalid_row_count_in_result_offset_clause.

(** An [async] call resolves with a value or rejects with a store error. *)
Inductive promise (A : Type) : Type :=
| Resolved (a : A)
| Rejected (e : store_error).
Arguments Resolved {A} a.
Arguments Rejected {A} e.

(** [column = $n] for a nullable column: [NULL] never matches. *)
Definition sql_eq {A : Type} (eqb : A -> A -> bool)
  (column : option A) (param : A) : bool :=
  match column with
  | Some a => eqb a param
  | None => false
  end.

(** [UPDATE sessions SET ... WHERE cond]: the new table and [rowCount]. *)
Definition update_where (cond : sessions_row -> bool)
  (set : sessions_row -> sessions_row) (rows : list sessions_row)
  : list sessions_row * nat :=
  (map (fun s => if cond s then set s else s) rows,
   List.length (filter cond rows)).

Definition set_status_revoked (st : string) (now : timestamp)
  (s : sessions_row) : sessions_row :=
  mkSessionsRow (id s) (user_id s) (session_token s) (ip_address s)
    (user_agent s) (device_info s) (Some st) (expires_at s)
    (created_at s) (last_active_at s) (Some now).

Definition set_status (st : string) (s : sessions_row) : sessions_row :=
  mkSessionsRow (id s) (user_id s) (session_token s) (ip_address s)
    (user_agent s) (device_info s) (Some st) (expires_at s)
    (created_at s) (last_active_at s) (revoked_at s).

Definition set_last_active_at (now : timestamp) (s : sessions_row)
  : sessions_row :=
  mkSessionsRow (id s) (user_id s) (session_token s) (ip_address s)
    (user_agent s) (device_info s) (status s) (expires_at s)
    (created_at s) (Some now) (revoked_at s).

Definition with_sessions (db : database) (rows : list sessions_row)
  : database :=
  mkDatabase (users db) rows.

(** [ORDER BY last_active_at DESC]: in descending order [NULL] sorts
    first.  Rows with equal keys keep their table order (the store leaves
    their order open). *)
Definition last_active_geb (a b : sessions_row) : bool :=
  match last_active_at a, last_active_at b with
  | None, _ => true
  | Some _, None => false
  | Some x, Some y => (y <=? x)%Z
  end.

Fixpoint insert_desc (s : sessions_row) (sorted : list sessions_row)
  : list sessions_row :=
  match sorted with
  | [] => [s]
  | t :: rest =>
      if last_active_geb s t then s :: t :: rest
      else t :: insert_desc s rest
  end.

Definition order_by_last_active_desc (rows : list sessions_row)
  : list sessions_row :=
  fold_right insert_desc [] rows.

(** [LIMIT l OFFSET o] on integer counts; a negative count is an error of
    the store.  Counts that are no [bigint] are refused by the store as
    well, so a query that the store answers is answered here, and not the
    other way round. *)
Definition limit_offset {A : Type} (l o : Z) (rows : list A)
  : promise (list A) :=
  if (l <? 0)%Z then Rejected invalid_row_count_in_limit_clause
  else if (o <? 0)%Z then Rejected invalid_row_count_in_result_offset_clause
  else Resolved (firstn (Z.to_nat l) (skipn (Z.to_nat o) rows)).

End Store.

(** ** Session management service ([src/services/passwordReset.js]) *)
Module SessionService.
Import Store.

Definition SESSION_STATUS_ACTIVE : string := "active".
Definition SESSION_STATUS_EXPIRED : string := "expired".
Definition SESSION_STATUS_REVOKED : string := "revoked".

(** *** Token generation *)

(** The secure random source behind [crypto.randomBytes]: the bytes it will
    deliver, and how many have been drawn. *)
Record entropy : Type := mkEntropy {
  source : nat -> Byte.byte;
  drawn : nat
}.

(** [crypto.randomBytes(size)] *)
Definition randomBytes (size : nat) (e : entropy)
  : list Byte.byte * entropy :=
  (map (source e) (seq (drawn e) size), mkEntropy (source e) (drawn e + size)).

Definition hex_alphabet : list ascii :=
  list_ascii_of_string "0123456789abcdef".

Definition hex_digit (nibble : N) : ascii :=
  nth (N.to_nat nibble) hex_alphabet "0"%char.

(** [buf.toString('hex')]: two lowercase digits per byte, high nibble
    first. *)
Definition byte_to_hex (b : Byte.byte) : string :=
  String (hex_digit (N.shiftr (Byte.to_N b) 4))
    (String (hex_digit (N.land (Byte.to_N b) 15)) EmptyString).

Fixpoint toString_hex (buf : list Byte.byte) : string :=
  match buf with
  | [] => EmptyString
  | b :: rest => byte_to_hex b ++ toString_hex rest
  end.

Definition generateSessionToken (e : entropy) : string * entropy :=
  let (buf, e') := randomBytes 64 e in
  (toString_hex buf, e').

(** *** Creation *)

Record metadata : Type := mkMetadata {
  ip : Js.field;
  userAgent : Js.field;
  deviceInfo : Js.field
}.

(** [metadata = {}] *)
Definition no_metadata : metadata :=
  mkMetadata Js.Missing Js.Missing Js.Missing.

(** [x || null] on a field *)
Definition or_null (f : Js.field) : option string :=
  match f with
  | Js.Str s => if String.eqb s "" then None else Some s
  | Js.Missing | Js.Null => None
  end.

(** [config.session.cookie_max_age || 604800000]; [None] is an unset
    entry, and the number [0] is falsy. *)
Definition session_lifetime (cookie_max_age : option Z) : Z :=
  match cookie_max_age with
  | Some n => if (n =? 0)%Z then 604800000%Z else n
  | None => 604800000%Z
  end.

(** The columns named by [RETURNING] in [createSession]. *)
Record created_session : Type := mkCreated {
  c_id : uuid;
  c_session_token : string;
  c_ip_address : option string;
  c_user_agent : option string;
  c_device_info : option string;
  c_status : option string;
  c_created_at : option timestamp;
  c_expires_at : timestamp
}.

Definition returning_created (s : sessions_row) : created_session :=
  mkCreated (id s) (session_token s) (ip_address s) (user_agent s)
    (device_info s) (status s) (created_at s) (expires_at s).

(** [INSERT INTO sessions ...]: the primary key, the [UNIQUE] token and the
    reference to [users] are checked by the store; [status] and
    [last_active_at] take their column defaults.  These are the key
    constraints only: the store can refuse a row for the type of a column
    as well ([INET], [VARCHAR(100)], [TIMESTAMP]), so a row that the store
    takes is taken here, and not the other way round. *)
Definition insert_session (row : sessions_row) (db : database)
  : promise database :=
  if existsb (fun s => N.eqb (id s) (id row)) (sessions db)
  then Rejected unique_violation
  else if existsb (fun s => String.eqb (session_token s) (session_token row))
            (sessions db)
  then Rejected unique_violation
  else if match user_id row with
          | Some uid => negb (existsb (fun u => N.eqb (u_id u) uid) (users db))
          | None => false
          end
  then Rejected foreign_key_violation
  else Resolved (with_sessions db (sessions db ++ [row])).

(** [createSession(userId, metadata)].  [date_now] is what [Date.now()]
    reads, [now] what the store's [NOW()] reads, [new_id] what
    [gen_random_uuid()] draws for the [id] column. *)
Definition createSession (cookie_max_age : option Z) (userId : uuid)
  (md : metadata) (date_now now : timestamp) (new_id : uuid)
  (e : entropy) (db : database)
  : promise (created_session * database) * entropy :=
  let (sessionToken, e') := generateSessionToken e in
  let expiresAt := (date_now + session_lifetime cookie_max_age)%Z in
  let row :=
    mkSessionsRow new_id (Some userId) sessionToken
      (or_null (ip md)) (or_null (userAgent md)) (or_null (deviceInfo md))
      (Some "active") expiresAt (Some now) (Some now) None in
  match insert_session row db with
  | Rejected err => (Rejected err, e')
  | Resolved db' => (Resolved (returning_created row, db'), e')
  end.

(** *** Validation *)

(** A row of the join in [validateSession]: [s.*] with [user_id] read from
    [u.id], and the user's [name], [email], [role] and [status]. *)
Record validated_session : Type := mkValidated {
  v_session : sessions_row;
  v_user_id : uuid;
  v_name : string;
  v_email : string;
  v_role : option string;
  v_user_status : option string
}.

Definition validateSession_query (param1 : string) (now : timestamp)
  (db : database) : list validated_session :=
  flat_map
    (fun s =>
       map (fun u =>
              mkValidated s (u_id u) (u_name u) (u_email u) (u_role u)
                (u_status u))
         (filter (fun u => sql_eq N.eqb (user_id s) (u_id u)) (users db)))
    (filter
       (fun s =>
          String.eqb (session_token s) param1
          && sql_eq String.eqb (status s) param1
          && (now <? expires_at s)%Z)
       (sessions db)).

(** [validateSession(token)]; [None] is the [null] result. *)
Definition validateSession (token : Js.field) (now : timestamp)
  (db : database) : option validated_session :=
  if negb (Js.truthy_field token) then None
  else
    match validateSession_query (Js.to_key token) now db with
    | [] => None
    | row :: _ => Some row
    end.

(** *** Listing *)

(** The columns selected by [getUserSessions] and [getSessionById]. *)
Record listed_session : Type := mkListed {
  l_id : uuid;
  l_session_token : string;
  l_ip_address : option string;
  l_user_agent : option string;
  l_device_info : option string;
  l_status : option string;
  l_created_at : option timestamp;
  l_last_active_at : option timestamp;
  l_expires_at : timestamp
}.

Definition select_listed (s : sessions_row) : listed_session :=
  mkListed (id s) (session_token s) (ip_address s) (user_agent s)
    (device_info s) (status s) (created_at s) (last_active_at s)
    (expires_at s).

(** [s.substring(start, end)]: both ends are clamped to the string and
    swapped when out of order. *)
Definition js_substring (s : string) (start stop : Z) : string :=
  let len := Z.of_nat (String.length s) in
  let a := Z.min (Z.max start 0) len in
  let b := Z.min (Z.max stop 0) len in
  let from := Z.min a b in
  let to := Z.max a b in
  String.substring (Z.to_nat from) (Z.to_nat (to - from)) s.

(** [s.substring(start)] *)
Definition js_substring_from (s : string) (start : Z) : string :=
  js_substring s start (Z.of_nat (String.length s)).

(** The masking expression of [getUserSessions]. *)
Definition mask_token (t : string) : string :=
  js_substring t 0 8 ++ "..."
    ++ js_substring_from t (Z.of_nat (String.length t) - 8).

Definition mask_listed (s : listed_session) : listed_session :=
  mkListed (l_id s) (mask_token (l_session_token s)) (l_ip_address s)
    (l_user_agent s) (l_device_info s) (l_status s) (l_created_at s)
    (l_last_active_at s) (l_expires_at s).

Record options : Type := mkOptions {
  opt_status : option string;
  opt_page : option Z;
  opt_limit : option Z
}.

(** A JavaScript number that is an integer, [Infinity] or [NaN]. *)
Inductive number : Type :=
| Int (z : Z)
| Infinity
| NaN.

(** [Math.ceil(total / limit)] for a count [total] and a limit that the
    store accepted (so [limit >= 0]). *)
Definition pages_of (total limit : Z) : number :=
  if (limit =? 0)%Z then (if (total =? 0)%Z then NaN else Infinity)
  else Int ((total + limit - 1) / limit)%Z.

Record pagination : Type := mkPagination {
  page : Z;
  limit : Z;
  total : Z;
  pages : number
}.

Record user_sessions : Type := mkUserSessions {
  us_sessions : list listed_session;
  us_pagination : pagination
}.

(** The [WHERE] clause built by [getUserSessions]. *)
Definition whereClause (userId : uuid) (st : string) (s : sessions_row)
  : bool :=
  sql_eq N.eqb (user_id s) userId
  && (if String.eqb st "all" then true else sql_eq String.eqb (status s) st).

Definition default {A : Type} (o : option A) (d : A) : A :=
  match o with
  | Some a => a
  | None => d
  end.

Definition getUserSessions (userId : uuid) (opts : options) (db : database)
  : promise user_sessions :=
  let st := default (opt_status opts) "active" in
  let pg := default (opt_page opts) 1%Z in
  let lim := default (opt_limit opts) 20%Z in
  let offset := ((pg - 1) * lim)%Z in
  let matching := filter (whereClause userId st) (sessions db) in
  let tot := Z.of_nat (List.length matching) in
  match limit_offset lim offset
          (map select_listed (order_by_last_active_desc matching)) with
  | Rejected err => Rejected err
  | Resolved rows =>
      Resolved
        (mkUserSessions (map mask_listed rows)
           (mkPagination pg lim tot (pages_of tot lim)))
  end.

(** [getSessionById(sessionId, userId)]: [result.rows[0] || null]. *)
Definition getSessionById (sessionId userId : uuid) (db : database)
  : option listed_session :=
  match
    filter (fun s => N.eqb (id s) sessionId
                     && sql_eq N.eqb (user_id s) userId) (sessions db)
  with
  | [] => None
  | s :: _ => Some (select_listed s)
  end.

(** *** Activity, revocation, expiry *)

Definition updateSessionActivity (sessionId : uuid) (now : timestamp)
  (db : database) : database :=
  with_sessions db
    (fst (update_where (fun s => N.eqb (id s) sessionId)
            (set_last_active_at now) (sessions db))).

Definition revokeSession (sessionId userId : uuid) (now : timestamp)
  (db : database) : bool * database :=
  let (rows, rowCount) :=
    update_where
      (fun s => N.eqb (id s) sessionId && sql_eq N.eqb (user_id s) userId)
      (set_status_revoked SESSION_STATUS_REVOKED now) (sessions db) in
  ((0 <? rowCount)%nat, with_sessions db rows).

(** [excludeSessionId] is [None] when the argument is left out or falsy. *)
Definition revokeAllSessions (userId : uuid) (excludeSessionId : option uuid)
  (now : timestamp) (db : database) : nat * database :=
  let cond s :=
    sql_eq N.eqb (user_id s) userId
    && sql_eq String.eqb (status s) SESSION_STATUS_ACTIVE
    && match excludeSessionId with
       | Some ex => negb (N.eqb (id s) ex)
       | None => true
       end in
  let (rows, rowCount) :=
    update_where cond (set_status_revoked SESSION_STATUS_REVOKED now)
      (sessions db) in
  (rowCount, with_sessions db rows).

Definition revokeSessionsByType (userId : uuid) (deviceType : string)
  (now : timestamp) (db : database) : nat * database :=
  let (rows, rowCount) :=
    update_where
      (fun s => sql_eq N.eqb (user_id s) userId
                && sql_eq String.eqb (device_info s) deviceType
                && sql_eq String.eqb (status s) SESSION_STATUS_ACTIVE)
      (set_status_revoked SESSION_STATUS_REVOKED now) (sessions db) in
  (rowCount, with_sessions db rows).

Definition cleanupExpiredSessions (now : timestamp) (db : database)
  : nat * database :=
  let (rows, rowCount) :=
    update_where
      (fun s => sql_eq String.eqb (status s) SESSION_STATUS_ACTIVE
                && (expires_at s <? now)%Z)
      (set_status SESSION_STATUS_EXPIRED) (sessions db) in
  (rowCount, with_sessions db rows).

Definition countActiveSessions (userId : uuid) (now : timestamp)
  (db : database) : nat :=
  List.length
    (filter (fun s => sql_eq N.eqb (user_id s) userId
                      && sql_eq String.eqb (status s) SESSION_STATUS_ACTIVE
                      && (now <? expires_at s)%Z)
       (sessions db)).

(** *** Sequences of calls

    One constructor per exported operation of the service, carrying the
    arguments of the call and what the call reads from its surroundings
    (clock, random source, fresh identifier). *)
Inductive operation : Type :=
| CreateSession (cookie_max_age : option Z) (userId : uuid) (md : metadata)
    (date_now now : timestamp) (new_id : uuid) (e : entropy)
| ValidateSession (token : Js.field) (now : timestamp)
| GetUserSessions (userId : uuid) (opts : options)
| GetSessionById (sessionId userId : uuid)
| UpdateSessionActivity (sessionId : uuid) (now : timestamp)
| RevokeSession (sessionId userId : uuid) (now : timestamp)
| RevokeAllSessions (userId : uuid) (excludeSessionId : option uuid)
    (now : timestamp)
| RevokeSessionsByType (userId : uuid) (deviceType : string)
    (now : timestamp)
| CleanupExpiredSessions (now : timestamp)
| CountActiveSessions (userId : uuid) (now : timestamp).

(** The store after a call; a rejected call and a query leave it as it
    was. *)
Definition apply (op : operation) (db : database) : database :=
  match op with
  | CreateSession cfg userId md date_now now new_id e =>
      match fst (createSession cfg userId md date_now now new_id e db) with
      | Resolved (_, db') => db'
      | Rejected _ => db
      end
  | ValidateSession _ _ => db
  | GetUserSessions _ _ => db
  | GetSessionById _ _ => db
  | UpdateSessionActivity sessionId now =>
      updateSessionActivity sessionId now db
  | RevokeSession sessionId userId now =>
      snd (revokeSession sessionId userId now db)
  | RevokeAllSessions userId ex now =>
      snd (revokeAllSessions userId ex now db)
  | RevokeSessionsByType userId deviceType now =>
      snd (revokeSessionsByType userId deviceType now db)
  | CleanupExpiredSessions now => snd (cleanupExpiredSessions now db)
  | CountActiveSessions _ _ => db
  end.

Definition run (ops : list operation) (db : database) : database :=
  fold_left (fun d op => apply op d) ops db.

(** The stored row with a given [id]. *)
Definition session_by_id (sessionId : uuid) (db : database)
  : option sessions_row :=
  find (fun s => N.eqb (id s) sessionId) (sessions db).

Definition status_of (sessionId : uuid) (db : database)
  : option (option string) :=
  option_map status (session_by_id sessionId db).

(** *** Vocabulary of the properties *)

(** A character of [[0-9a-f]]. *)
Definition is_lower_hex (c : ascii) : bool :=
  let n := nat_of_ascii c in
  ((48 <=? n)%nat && (n <=? 57)%nat) || ((97 <=? n)%nat && (n <=? 102)%nat).

(** What [revokeAllSessions] is to do with a row: revoke it when it belongs
    to the user, is active and is not the spared session; keep it
    otherwise. *)
Definition to_revoke (userId : uuid) (excludeSessionId : option uuid)
  (s : sessions_row) : Prop :=
  user_id s = Some userId /\ status s = Some "active"
  /\ excludeSessionId <> Some (id s).

Definition revoked_or_kept (userId : uuid) (excludeSessionId : option uuid)
  (now : timestamp) (before after : sessions_row) : Prop :=
  (to_revoke userId excludeSessionId before
   /\ after = set_status_revoked "revoked" now before)
  \/ (~ to_revoke userId excludeSessionId before /\ after = before).


(** The number of sessions whose status differs between two states of the
    table, row by row. *)
Definition status_changed (p : sessions_row * sessions_row) : bool :=
  match status (fst p), status (snd p) with
  | Some a, Some b => negb (String.eqb a b)
  | None, None => false
  | _, _ => true
  end.

Definition affected (before after : list sessions_row) : nat :=
  List.length (filter status_changed (combine before after)).

End SessionService.

(** ** Sample stores *)
Module Examples.
Import Store SessionService.

(** A random source that delivers the bytes 0, 1, 2, ... in turn. *)
Definition counting_entropy : entropy :=
  mkEntropy
    (fun i =>
       match Byte.of_N (N.of_nat i mod 256) with
       | Some b => b
       | None => Byte.x00
       end)
    0.

Definition ada : users_row :=
  mkUsersRow 1 "Ada" "ada@example.com" (Some "user") (Some "active").

(** One user, no session. *)
Definition fresh_store : database := mkDatabase [ada] [].

(** [createSession(1)] on the fresh store at time 1000, with the default
    lifetime and the identifier 7 drawn by the store. *)
Definition first_login : promise (created_session * database) * entropy :=
  createSession None 1 no_metadata 1000 1000 7 counting_entropy fresh_store.

Definition store_after_login : database :=
  match fst first_login with
  | Resolved (_, db) => db
  | Rejected _ => fresh_store
  end.

Definition revoked_row : sessions_row :=
  mkSessionsRow 10 (Some 1%N) "00ff00ff00ff00ff" None None (Some "phone")
    (Some "revoked") 5000 (Some 0%Z) (Some 40%Z) (Some 100%Z).

Definition expired_row : sessions_row :=
  mkSessionsRow 11 (Some 1%N) "11ee11ee11ee11ee" None None (Some "laptop")
    (Some "expired") 50 (Some 0%Z) (Some 40%Z) None.

Definition active_row (i : uuid) (token : string) : sessions_row :=
  mkSessionsRow i (Some 1%N) token None None None
    (Some "active") 9000 (Some 0%Z) (Some 40%Z) None.

Definition store_with_revoked : database := mkDatabase [ada] [revoked_row].

Definition store_with_expired : database := mkDatabase [ada] [expired_row].

(** Two active sessions of the user, a revoked one, and one of nobody. *)
Definition two_devices : database :=
  mkDatabase [ada]
    [ active_row 20 "aaaaaaaaaaaaaaaa";
      active_row 21 "bbbbbbbbbbbbbbbb";
      revoked_row;
      mkSessionsRow 22 None "cccccccccccccccc" None None None
        (Some "active") 9000 (Some 0%Z) (Some 40%Z) None ].

End Examples.

(** ** Password reset service (first half of
    [src/services/passwordReset.js]) *)
Module PasswordReset.
Import Store.

(** The columns of [users] that the reset queries read or write. *)
Record account : Type := mkAccount {
  a_id : uuid;
  a_name : string;
  a_email : string;
  a_password : string;
  a_status : option string;
  a_updated_at : option timestamp
}.

(** A row of [password_reset_tokens]. *)
Record reset_token : Type := mkResetToken {
  t_id : uuid;
  t_user_id : option uuid;
  t_token_hash : string;
  t_expires_at : timestamp;
  t_used : option bool;
  t_used_at : option timestamp;
  t_created_at : option timestamp
}.

Record reset_db : Type := mkResetDb {
  accounts : list account;
  reset_tokens : list reset_token
}.

(** [generateResetToken()]: 32 random bytes in hex. *)
Definition generateResetToken (e : SessionService.entropy)
  : string * SessionService.entropy :=
  let (buf, e') := SessionService.randomBytes 32 e in
  (SessionService.toString_hex buf, e').

(** [config.password.reset_expires_in || 3600] *)
Definition reset_expires_in (configured : option Z) : Z :=
  match configured with
  | Some n => if (n =? 0)%Z then 3600%Z else n
  | None => 3600%Z
  end.

(** [config.password.salt_rounds || 12] *)
Definition salt_rounds (configured : option Z) : Z :=
  match configured with
  | Some n => if (n =? 0)%Z then 12%Z else n
  | None => 12%Z
  end.

(** What [createResetRequest] resolves with. *)
Inductive reset_request : Type :=
| NoAccount (message : string)
| LinkSent (message : string) (userId : uuid) (userName : string)
    (resetToken : string) (expiresIn : Z) (expiresAt : timestamp).

(** What [verifyResetToken] resolves with. *)
Inductive verification : Type :=
| Invalid (error : string)
| Valid (userId : uuid) (email : string) (name : string).

(** What [resetPassword] resolves with. *)
Inductive reset_result : Type :=
| ResetFailed (error : string)
| ResetDone (message : string).

Section WithLibraries.

(** The library functions the service calls: [String.prototype.toLowerCase],
    SHA-256 with hex digest ([crypto.createHash('sha256')]), and
    [bcrypt.hash] as a function of the password, the cost and the salt it
    draws. *)
Variable toLowerCase : string -> string.
Variable sha256_hex : string -> string.
Variable bcrypt_hash : string -> Z -> list Byte.byte -> string.

Definition hashToken (token : string) : string := sha256_hex token.

(** [INSERT INTO password_reset_tokens ...] under the primary key and the
    [UNIQUE] constraint on [token_hash]; [used] takes its default. *)
Definition insert_reset_token (row : reset_token) (db : reset_db)
  : promise reset_db :=
  if existsb (fun t => N.eqb (t_id t) (t_id row)) (reset_tokens db)
  then Rejected unique_violation
  else if existsb (fun t => String.eqb (t_token_hash t) (t_token_hash row))
            (reset_tokens db)
  then Rejected unique_violation
  else Resolved (mkResetDb (accounts db) (reset_tokens db ++ [row])).

(** [createResetRequest(email)].  The store after the call is returned
    beside the outcome: the [DELETE] has taken effect also when the
    [INSERT] after it is rejected. *)
Definition createResetRequest (configured_expiry : option Z) (email : string)
  (date_now now : timestamp) (new_id : uuid) (e : SessionService.entropy)
  (db : reset_db)
  : promise reset_request * reset_db * SessionService.entropy :=
  let param1 := toLowerCase email in
  let userResult :=
    filter (fun a => String.eqb (a_email a) param1
                     && sql_eq String.eqb (a_status a) param1)
      (accounts db) in
  match userResult with
  | [] =>
      (Resolved
         (NoAccount
            "If an account exists with this email, a password reset link will be sent."),
       db, e)
  | user :: _ =>
      let expiresIn := reset_expires_in configured_expiry in
      let (rawToken, e') := generateResetToken e in
      let hashedToken := hashToken rawToken in
      let expiresAt := (date_now + expiresIn * 1000)%Z in
      let db1 :=
        mkResetDb (accounts db)
          (filter (fun t => negb (sql_eq N.eqb (t_user_id t) (a_id user)))
             (reset_tokens db)) in
      let row :=
        mkResetToken new_id (Some (a_id user)) hashedToken expiresAt
          (Some false) None (Some now) in
      match insert_reset_token row db1 with
      | Rejected err => (Rejected err, db1, e')
      | Resolved db2 =>
          (Resolved
             (LinkSent "Password reset link sent" (a_id user) (a_name user)
                rawToken expiresIn expiresAt),
           db2, e')
      end
  end.

(** The join of [verifyResetToken]: unused token rows with that hash, each
    with its user. *)
Definition verifyResetToken_query (hashedToken : string) (db : reset_db)
  : list (reset_token * account) :=
  flat_map
    (fun t =>
       map (fun a => (t, a))
         (filter (fun a => sql_eq N.eqb (t_user_id t) (a_id a)) (accounts db)))
    (filter
       (fun t => String.eqb (t_token_hash t) hashedToken
                 && sql_eq Bool.eqb (t_used t) false)
       (reset_tokens db)).

(** [verifyResetToken(token)]; [date_now] is what [new Date()] reads. *)
Definition verifyResetToken (token : string) (date_now : timestamp)
  (db : reset_db) : verification :=
  let hashedToken := hashToken token in
  match verifyResetToken_query hashedToken db with
  | [] => Invalid "Invalid or expired reset token"
  | (record, user) :: _ =>
      if (t_expires_at record <? date_now)%Z
      then Invalid "Reset token has expired"
      else if negb (sql_eq String.eqb (a_status user) "active")
      then Invalid "User account is not active"
      else Valid (a_id user) (a_email user) (a_name user)
  end.

Definition set_password (hashedPassword : string) (now : timestamp)
  (a : account) : account :=
  mkAccount (a_id a) (a_name a) (a_email a) hashedPassword (a_status a)
    (Some now).

Definition mark_used (now : timestamp) (t : reset_token) : reset_token :=
  mkResetToken (t_id t) (t_user_id t) (t_token_hash t) (t_expires_at t)
    (Some true) (Some now) (t_created_at t).

(** [resetPassword(token, newPassword)]; [salt] is what [bcrypt.hash]
    draws. *)
Definition resetPassword (configured_rounds : option Z)
  (token newPassword : string) (salt : list Byte.byte)
  (date_now now : timestamp) (db : reset_db) : reset_result * reset_db :=
  match verifyResetToken token date_now db with
  | Invalid error => (ResetFailed error, db)
  | Valid userId _ _ =>
      let saltRounds := salt_rounds configured_rounds in
      let hashedPassword := bcrypt_hash newPassword saltRounds salt in
      let accounts1 :=
        map (fun a => if N.eqb (a_id a) userId
                      then set_password hashedPassword now a else a)
          (accounts db) in
      let hashedToken := hashToken token in
      let tokens1 :=
        map (fun t => if String.eqb (t_token_hash t) hashedToken
                      then mark_used now t else t)
          (reset_tokens db) in
      (ResetDone "Password reset successfully",
       mkResetDb accounts1 tokens1)
  end.

(** [cleanupExpiredTokens()]: the [rowCount] of the [DELETE] and the
    store after it. *)
Definition cleanupExpiredTokens (now : timestamp) (db : reset_db)
  : nat * reset_db :=
  (List.length
     (filter (fun t => (t_expires_at t <? now)%Z) (reset_tokens db)),
   mkResetDb (accounts db)
     (filter (fun t => negb (t_expires_at t <? now)%Z) (reset_tokens db))).

End WithLibraries.

End PasswordReset.

(** ** Authorization middleware ([authorize], [adminOnly] in
    [src/middleware/rbac.js]; the permission middleware in
    [src/routes/auth.js]) *)
Module Gates.
Import Js Rbac.

(** What a gate does with the request: call [next()], call [next(error)]
    with an authentication or authorization error, or, when the [async]
    callback it handed to [authenticate] throws, leave a rejected promise
    that nothing handles. *)
Inductive outcome : Type :=
| PassedOn
| NotAuthenticated (message : string)
| NotAuthorized (message : string)
| UnhandledRejection (e : error).

(** [roles.includes(req.user.role)] for a list of role strings. *)
Definition includes_field (roles : list string) (f : field) : bool :=
  match f with
  | Str s => existsb (String.eqb s) roles
  | Missing | Null => false
  end.

(** [xs.join(', ')] *)
Definition join (xs : list string) : string := String.concat ", " xs.








Definition requireRole (roles : list string) (req_user : user) : outcome :=
  if includes_field roles (user_role req_user) then PassedOn
  else NotAuthorized ("Access denied. Allowed roles: " ++ join roles).

End Gates.

(** ** Sample data for the password reset service *)
Module ResetExamples.
Import Store PasswordReset.

(** Stand-ins for the library functions, to run the service on sample
    data: any functions will do, since the properties hold for all. *)
Definition same_case (s : string) : string := s.
Definition toy_digest (s : string) : string := "digest:" ++ s.
Definition toy_bcrypt (password : string) (rounds : Z) (salt : list Byte.byte)
  : string := "bcrypt:" ++ password.

Definition bob : account :=
  mkAccount 2 "Bob" "bob@example.com" "old-hash" (Some "active") None.

(** An account whose e-mail column holds the word in its status column. *)
Definition eve : account :=
  mkAccount 3 "Eve" "active" "old-hash" (Some "active") None.

Definition bob_token : reset_token :=
  mkResetToken 50 (Some 2%N) (toy_digest "token-of-bob") 5000 (Some false)
    None (Some 0%Z).

Definition stale_token : reset_token :=
  mkResetToken 51 (Some 3%N) (toy_digest "token-of-eve") 100 (Some false)
    None (Some 0%Z).

Definition only_bob : reset_db := mkResetDb [bob] [bob_token].

Definition bob_and_eve : reset_db :=
  mkResetDb [bob; eve] [stale_token; bob_token].

End ResetExamples.

(** ** Sample sequences of calls *)
Module CallExamples.
Import Store SessionService Examples.
Local Open Scope list_scope.

(** A login, some activity, and revocations around a sweep. *)
Definition sample_calls : list operation :=
  [ CreateSession None 1 no_metadata 1000 1000 7 counting_entropy;
    UpdateSessionActivity 20 1500;
    RevokeSessionsByType 1 "phone" 1600;
    CleanupExpiredSessions 9500;
    RevokeAllSessions 1 (Some 7%N) 9600 ].

(** Calls without [createSession]. *)
Definition quiet_calls : list operation :=
  [ UpdateSessionActivity 20 1500;
    RevokeSession 21 1 1600;
    CleanupExpiredSessions 9500 ].

(** A store in which a session's token is the word [active]. *)
Definition word_token_store : database :=
  mkDatabase [ada] [active_row 5 "active"].

End CallExamples.

(** ** Error handling middleware (second part of
    [src/middleware/rbac.js]) *)
Module ErrorMiddleware.
Import Js.

Section WithDetails.

(** The entries of a validation error's [errors] array. *)
Variable detail : Type.

(** An error value as the handler reads it.  [e_array] is [Some l] when
    the error has an [array] method, returning [l]; [e_errors] is [Some l]
    when it has an [errors] array. *)
Record js_error : Type := mkError {
  e_message : field;
  e_statusCode : option Z;
  e_code : field;
  e_isOperational : bool;
  e_errors : option (list detail);
  e_array : option (list detail);
  e_name : field;
  e_stack : field
}.

(** What the handler sends: [res.status(...)] and the JSON body. *)
Record response : Type := mkResponse {
  r_status : option Z;
  r_message : string;
  r_code : string;
  r_details : option (list detail);
  r_stack : option string
}.

(** [x || fallback] for a string-valued field. *)
Definition or_string (f : field) (fallback : string) : string :=
  match f with
  | Str s => if String.eqb s "" then fallback else s
  | Missing | Null => fallback
  end.

(** [includeStack && error.stack] as the presence of the [stack] entry. *)
Definition stack_entry (includeStack : bool) (stack : field) : option string :=
  if includeStack
  then match stack with
       | Str s => if String.eqb s "" then None else Some s
       | Missing | Null => None
       end
  else None.

(** [formatErrorResponse(error, includeStack)], with the status the caller
    sets. *)
Definition formatErrorResponse (status : option Z) (message code : field)
  (errors : option (list detail)) (stack : field) (includeStack : bool)
  : response :=
  mkResponse status
    (or_string message "An error occurred")
    (or_string code "INTERNAL_ERROR")
    errors
    (stack_entry includeStack stack).

Definition code_is (f : field) (s : string) : bool :=
  match f with
  | Str c => String.eqb c s
  | Missing | Null => false
  end.

(** [errorHandler(err, req, res, next)]; [debug] is [config.app.debug]. *)
Definition errorHandler (debug : bool) (err : js_error) : response :=
  if e_isOperational err
  then formatErrorResponse (e_statusCode err) (e_message err) (e_code err)
         (e_errors err) (e_stack err) false
  else
    match e_array err with
    | Some errors =>
        mkResponse (Some 400%Z) "Validation failed" "VALIDATION_ERROR"
          (Some errors) None
    | None =>
        if code_is (e_code err) "23505"
        then mkResponse (Some 409%Z) "Resource already exists"
               "CONFLICT_ERROR" None None
        else if code_is (e_code err) "23503"
        then mkResponse (Some 400%Z) "Referenced resource does not exist"
               "VALIDATION_ERROR" None None
        else if code_is (e_code err) "23502"
        then mkResponse (Some 400%Z) "Required field is missing"
               "VALIDATION_ERROR" None None
        else if code_is (e_name err) "JsonWebTokenError"
        then mkResponse (Some 401%Z) "Invalid token" "AUTHENTICATION_ERROR"
               None None
        else if code_is (e_name err) "TokenExpiredError"
        then mkResponse (Some 401%Z) "Token has expired" "TOKEN_EXPIRED"
               None None
        else
          let statusCode :=
            match e_statusCode err with
            | Some n => if (n =? 0)%Z then 500%Z else n
            | None => 500%Z
            end in
          let message :=
            if debug then e_message err
            else Str "An unexpected error occurred" in
          formatErrorResponse (Some statusCode) message
            (Str "INTERNAL_ERROR") None (e_stack err) debug
    end.

(** The texts the handler itself writes into a response. *)
Definition fixed_messages : list string :=
  [ "Validation failed"; "Resource already exists";
    "Referenced resource does not exist"; "Required field is missing";
    "Invalid token"; "Token has expired"; "An unexpected error occurred" ].

End WithDetails.

Arguments mkError {detail}.
Arguments mkResponse {detail}.
Arguments e_message {detail}.
Arguments e_statusCode {detail}.
Arguments e_code {detail}.
Arguments e_isOperational {detail}.
Arguments e_errors {detail}.
Arguments e_array {detail}.
Arguments e_name {detail}.
Arguments e_stack {detail}.
Arguments r_status {detail}.
Arguments r_message {detail}.
Arguments r_code {detail}.
Arguments r_details {detail}.
Arguments r_stack {detail}.
Arguments errorHandler {detail}.
Arguments formatErrorResponse {detail}.

End ErrorMiddleware.

(** ** Vocabulary for the invariants of the session store *)
Module Invariants.
Import Store SessionService.

(** The [PRIMARY KEY] on [id] and the [UNIQUE] constraint on
    [session_token], as a property of a table state. *)
Definition unique_keys (db : database) : Prop :=
  NoDup (map id (sessions db)) /\ NoDup (map session_token (sessions db)).

(** The rows of a user, in table order. *)
Definition sessions_of (userId : uuid) (db : database) : list sessions_row :=
  filter (fun s => sql_eq N.eqb (user_id s) userId) (sessions db).

(** Two states of a row that agree on everything fixed at creation. *)
Definition same_identity (s s' : sessions_row) : Prop :=
  id s' = id s
  /\ user_id s' = user_id s
  /\ session_token s' = session_token s
  /\ ip_address s' = ip_address s
  /\ user_agent s' = user_agent s
  /\ device_info s' = device_info s
  /\ expires_at s' = expires_at s
  /\ created_at s' = created_at s.

(** What one call may do to a stored row: keep its status, revoke it, or
    expire it when it was active. *)
Definition rewritten (s s' : sessions_row) : Prop :=
  same_identity s s'
  /\ (status s' = status s
      \/ status s' = Some "revoked"
      \/ (status s = Some "active" /\ status s' = Some "expired")).

Definition is_create (op : operation) : bool :=
  match op with
  | CreateSession _ _ _ _ _ _ _ => true
  | _ => false
  end.

(** The test of [countActiveSessions] on one row. *)
Definition live (userId : uuid) (now : timestamp) (s : sessions_row) : Prop :=
  user_id s = Some userId /\ status s = Some "active"
  /\ (now < expires_at s)%Z.

End Invariants.

(** * The repository's unit tests, replayed on the embedding *)
Module UnitTests.
Import Js Rbac.

(** The calls of the table's tests.  The tests expect arrays and
    booleans; the lookups throw, and only the guard on a missing user or
    role answers. *)
Example unknown_role_lookup_throws :
  getRolePermissions "unknown_role" = Throw ReferenceError.
Proof. reflexivity. Qed.

Example role_tests_throw :
  roleHasPermission USER USER_READ = Throw ReferenceError
  /\ roleHasPermission ADMIN USER_MANAGE = Throw ReferenceError.
Proof. split; reflexivity. Qed.

Example null_and_roleless_users_have_nothing :
  userHasPermission None USER_READ = Return false
  /\ userHasPermission (Some (mkUser Missing Missing)) USER_READ
     = Return false
  /\ userHasAnyPermission None [USER_READ] = Return false.
Proof. repeat split. Qed.

Example any_and_all_on_lists_throw :
  userHasAnyPermission (Some (mkUser Missing (Str USER)))
    [USER_READ; USER_DELETE] = Throw ReferenceError
  /\ userHasAnyPermission (Some (mkUser Missing (Str USER)))
       [USER_MANAGE; SYSTEM_CONFIG] = Throw ReferenceError
  /\ userHasAllPermissions (Some (mkUser Missing (Str ADMIN)))
       [USER_READ; USER_UPDATE] = Throw ReferenceError
  /\ userHasAllPermissions (Some (mkUser Missing (Str USER)))
       [USER_READ; USER_MANAGE] = Throw ReferenceError.
Proof. repeat split. Qed.

Example available_roles :
  getAvailableRoles = ["user"; "moderator"; "admin"; "super_admin"]
  /\ isValidRole "super_admin" = true
  /\ isValidRole "root" = false
  /\ isValidRole "" = false.
Proof. repeat split. Qed.

Example hierarchy_comparisons :
  isRoleHigherOrEqual USER USER = true
  /\ isRoleHigherOrEqual SUPER_ADMIN ADMIN = true
  /\ isRoleHigherOrEqual USER ADMIN = false
  /\ isRoleHigherOrEqual MODERATOR ADMIN = false.
Proof. repeat split. Qed.

Example spread_names_stay_uninitialised :
  List.length (Object_values PERMISSIONS) = 21
  /\ ROLES_USER_PERMISSIONS = Uninitialised
  /\ ROLES_MODERATOR_PERMISSIONS = Uninitialised
  /\ ROLES_ADMIN_PERMISSIONS = Uninitialised.
Proof. repeat split. Qed.

Example empty_token_is_null (now : Store.timestamp) (db : Store.database) :
  SessionService.validateSession Null now db = None
  /\ SessionService.validateSession (Str "") now db = None.
Proof. split; reflexivity. Qed.

Example long_token_is_masked :
  SessionService.mask_token "very-long-session-token-that-should-be-masked"
  = "very-lon...e-masked".
Proof. reflexivity. Qed.

Example listing_after_login :
  match SessionService.getUserSessions 1 (SessionService.mkOptions None None None)
          Examples.store_after_login with
  | Store.Resolved res =>
      map SessionService.l_session_token (SessionService.us_sessions res)
      = ["00010203...3c3d3e3f"]
      /\ SessionService.total (SessionService.us_pagination res) = 1%Z
      /\ SessionService.pages (SessionService.us_pagination res)
         = SessionService.Int 1
  | Store.Rejected _ => False
  end.
Proof. repeat split. Qed.

End UnitTests.

(** * Properties of the RBAC tables and decision functions *)
Module RbacProofs.
Import Js Rbac.

Lemma existsb_eqb_In (x : string) (l : list string) :
  existsb (String.eqb x) l = true <-> In x l.
Proof.
  rewrite existsb_exists. split.
  - intros [y [Hy He]]. apply String.eqb_eq in He. now subst.
  - intros H. exists x. split; [exact H | apply String.eqb_refl].
Qed.

Lemma strict_supersetb_sound (big small : list string) :
  strict_supersetb big small = true -> strict_superset big small.
Proof.
  unfold strict_supersetb, strict_superset.
  rewrite andb_true_iff, forallb_forall, existsb_exists.
  intros [Hall [p [Hp Hn]]]. split.
  - intros q Hq. apply existsb_eqb_In. now apply Hall.
  - exists p. split; [exact Hp |].
    intros Hin. apply existsb_eqb_In in Hin.
    rewrite Hin in Hn. discriminate.
Qed.

Lemma isValidRole_inv (role : string) :
  isValidRole role = true ->
  role = USER \/ role = MODERATOR \/ role = ADMIN \/ role = SUPER_ADMIN.
Proof.
  unfold isValidRole. rewrite existsb_eqb_In. simpl.
  intros [H | [H | [H | [H | []]]]]; subst; auto.
Qed.

Lemma isValidRole_false (role : string) :
  isValidRole role = false ->
  role <> USER /\ role <> MODERATOR /\ role <> ADMIN /\ role <> SUPER_ADMIN.
Proof.
  intros H. repeat split; intros ->; vm_compute in H; discriminate.
Qed.

(** Own-property lookup in a table keyed by the four roles misses every
    other string. *)
Lemma own_role_table_None {A : Type} (a b c d : A) (role : string) :
  isValidRole role = false ->
  own [ (USER, a); (MODERATOR, b); (ADMIN, c); (SUPER_ADMIN, d) ] role = None.
Proof.
  intros H. apply isValidRole_false in H.
  destruct H as (H1 & H2 & H3 & H4). cbn [own].
  repeat match goal with
         | |- context [String.eqb ?k role] =>
             let E := fresh in
             destruct (String.eqb_spec k role) as [E | E];
               [symmetry in E; contradiction |]
         end.
  reflexivity.
Qed.

(** The level of a string that names no property at all is the default. *)
Lemma plain_unknown_level (role : string) :
  plain_unknown role -> level role = Val 0%Z.
Proof.
  intros [Hv Hp]. unfold level, get, ROLE_HIERARCHY.
  rewrite (own_role_table_None _ _ _ _ role Hv), Hp. reflexivity.
Qed.

Lemma plain_unknown_isRoleHigherOrEqual (r1 r2 : string) :
  plain_unknown r1 -> plain_unknown r2 -> isRoleHigherOrEqual r1 r2 = true.
Proof.
  intros H1 H2. unfold isRoleHigherOrEqual.
  rewrite (plain_unknown_level r1 H1), (plain_unknown_level r2 H2).
  reflexivity.
Qed.

(** ** The permission table and its lookups *)

Lemma ROLE_PERMISSIONS_literal_throws :
  ROLE_PERMISSIONS_literal Uninitialised Uninitialised = Throw ReferenceError.
Proof. reflexivity. Qed.

Lemma getRolePermissions_throws (role : string) :
  getRolePermissions role = Throw ReferenceError.
Proof. reflexivity. Qed.

Lemma roleHasPermission_throws (role p : string) :
  roleHasPermission role p = Throw ReferenceError.
Proof. reflexivity. Qed.

Lemma userHasPermission_guard_or_throw (u : user) (p : string) :
  userHasPermission (Some u) p
  = if truthy_field (user_role u) then Throw ReferenceError
    else Return false.
Proof.
  unfold userHasPermission.
  destruct (truthy_field (user_role u)); reflexivity.
Qed.

Lemma userHasAnyPermission_guard_or_throw (u : user) (ps : list string) :
  userHasAnyPermission (Some u) ps
  = if truthy_field (user_role u) then Throw ReferenceError
    else Return false.
Proof.
  unfold userHasAnyPermission.
  destruct (truthy_field (user_role u)); reflexivity.
Qed.

Lemma userHasAllPermissions_guard_or_throw (u : user) (ps : list string) :
  userHasAllPermissions (Some u) ps
  = if truthy_field (user_role u) then Throw ReferenceError
    else Return false.
Proof.
  unfold userHasAllPermissions.
  destruct (truthy_field (user_role u)); reflexivity.
Qed.

(** The literal has a value once the names it spreads hold the table's
    own [user] and [moderator] entries, which is what lines 85 and 86
    declare them to be. *)
Lemma literal_with_names_bound_exists :
  exists table,
    ROLE_PERMISSIONS_literal (Initialised (get table USER))
      (Initialised (get table MODERATOR)) = Return table.
Proof.
  exists
    [ (USER,
       [ USER_READ; USER_UPDATE;
         INFLUENCER_READ; INFLUENCER_CREATE; INFLUENCER_UPDATE;
         CAMPAIGN_READ; CAMPAIGN_CREATE; CAMPAIGN_UPDATE;
         MODEL_READ; MODEL_CREATE; MODEL_UPDATE;
         ANALYTICS_READ ]);
      (MODERATOR,
       [ USER_READ; USER_UPDATE;
         INFLUENCER_READ; INFLUENCER_CREATE; INFLUENCER_UPDATE;
         CAMPAIGN_READ; CAMPAIGN_CREATE; CAMPAIGN_UPDATE;
         MODEL_READ; MODEL_CREATE; MODEL_UPDATE;
         ANALYTICS_READ;
         INFLUENCER_DELETE; CAMPAIGN_DELETE; MODEL_DELETE;
         ANALYTICS_EXPORT ]);
      (ADMIN,
       [ USER_READ; USER_UPDATE;
         INFLUENCER_READ; INFLUENCER_CREATE; INFLUENCER_UPDATE;
         CAMPAIGN_READ; CAMPAIGN_CREATE; CAMPAIGN_UPDATE;
         MODEL_READ; MODEL_CREATE; MODEL_UPDATE;
         ANALYTICS_READ;
         INFLUENCER_DELETE; CAMPAIGN_DELETE; MODEL_DELETE;
         ANALYTICS_EXPORT;
         USER_MANAGE; ADMIN_ACCESS ]);
      (SUPER_ADMIN, Object_values PERMISSIONS) ].
  reflexivity.
Qed.

(** In that table every role ranked strictly higher holds every permission
    of the lower role and at least one more. *)
Lemma literal_with_names_bound_is_strict_chain
  (table : object (list string)) (r1 r2 : string) (n1 n2 : Z) :
  ROLE_PERMISSIONS_literal (Initialised (get table USER))
    (Initialised (get table MODERATOR)) = Return table ->
  isValidRole r1 = true ->
  isValidRole r2 = true ->
  level r1 = Val n1 ->
  level r2 = Val n2 ->
  (n2 < n1)%Z ->
  exists l1 l2,
    or_empty_array (get table r1) = Val l1
    /\ or_empty_array (get table r2) = Val l2
    /\ strict_superset l1 l2.
Proof.
  intros H V1 V2 L1 L2 Hlt.
  unfold ROLE_PERMISSIONS_literal in H. cbn [read bind] in H.
  destruct (get table USER) as [[lu | b] |] eqn:GU;
    cbn [spread bind] in H; try discriminate H.
  destruct (get table MODERATOR) as [[lm | b] |] eqn:GM;
    cbn [spread bind] in H; try discriminate H.
  injection H as H. subst table.
  vm_compute in GU. injection GU as <-.
  vm_compute in GM. injection GM as <-.
  apply isValidRole_inv in V1. apply isValidRole_inv in V2.
  destruct V1 as [-> | [-> | [-> | ->]]];
    destruct V2 as [-> | [-> | [-> | ->]]];
    vm_compute in L1; vm_compute in L2;
    injection L1 as <-; injection L2 as <-;
    try lia;
    (eexists; eexists; split; [reflexivity | split; [reflexivity |]];
     apply strict_supersetb_sound; vm_compute; reflexivity).
Qed.

(** C2. The table of line 51 is never built.  Its literal spreads two
    names that are declared below it, so evaluating it throws a
    [ReferenceError], [ROLE_PERMISSIONS] stays uninitialised, and
    [getRolePermissions] throws for every role: there are no permission
    sets to compare, in particular not for [admin], which the hierarchy
    ranks above [moderator]. *)
Theorem role_permissions_table_is_never_built :
  ROLE_PERMISSIONS_literal Uninitialised Uninitialised = Throw ReferenceError
  /\ ROLE_PERMISSIONS = Uninitialised
  /\ (forall role, getRolePermissions role = Throw ReferenceError)
  /\ isRoleHigherOrEqual "admin" "moderator" = true
  /\ isRoleHigherOrEqual "moderator" "admin" = false
  /\ ~ (exists l1 l2,
          getRolePermissions "admin" = Return (Val l1)
          /\ getRolePermissions "moderator" = Return (Val l2)
          /\ strict_superset l1 l2).
Proof.
  split; [reflexivity | split; [reflexivity | split; [| split; [| split]]]].
  - exact getRolePermissions_throws.
  - reflexivity.
  - reflexivity.
  - intros (l1 & l2 & H & _).
    rewrite getRolePermissions_throws in H. discriminate H.
Qed.

(** C6. On the empty list [userHasAllPermissions] and
    [userHasAnyPermission] never differ, and neither returns [true]: for a
    user whose [role] is truthy both throw the [ReferenceError] of the
    permission lookup, which comes before the list is looked at, and for
    every other user both return [false] from the guard. *)
Theorem empty_list_all_and_any_never_differ (u : user) :
  userHasAllPermissions (Some u) []
  = (if truthy_field (user_role u) then Throw ReferenceError
     else Return false)
  /\ userHasAnyPermission (Some u) []
     = (if truthy_field (user_role u) then Throw ReferenceError
        else Return false)
  /\ userHasAllPermissions (Some u) [] <> Return true
  /\ userHasAllPermissions (Some u) [] = userHasAnyPermission (Some u) []
  /\ userHasAllPermissions (Some (mkUser (Str "u1") (Str "user"))) []
     = Throw ReferenceError.
Proof.
  rewrite userHasAllPermissions_guard_or_throw,
    userHasAnyPermission_guard_or_throw.
  repeat split.
  destruct (truthy_field (user_role u)); discriminate.
Qed.

(** C7, at the role string ["constructor"], which is none of the four
    roles: the hierarchy level is the inherited function [Object] rather
    than [0]; [getRolePermissions] and [roleHasPermission] throw a
    [ReferenceError], as they do for every role string; and in whatever
    table the literal evaluates to once the names it spreads are bound,
    the lookup [table[role] || []] gives the function [Object] rather than
    an empty array, on which [includes] throws a [TypeError]. *)
Theorem inherited_name_is_not_fail_closed :
  isValidRole "constructor" = false
  /\ level "constructor" = Builtin (Native "Object")
  /\ (forall role, getRolePermissions role = Throw ReferenceError)
  /\ (forall role p, roleHasPermission role p = Throw ReferenceError)
  /\ (forall names_user names_moderator table p,
         ROLE_PERMISSIONS_literal names_user names_moderator = Return table ->
         or_empty_array (get table "constructor") = Builtin (Native "Object")
         /\ includes (or_empty_array (get table "constructor")) p
            = Throw TypeError).
Proof.
  split; [reflexivity | split; [reflexivity | split; [| split]]].
  - exact getRolePermissions_throws.
  - exact roleHasPermission_throws.
  - intros nu nm table p H.
    unfold ROLE_PERMISSIONS_literal in H.
    destruct (bind (read nu) spread) as [lu |]; [| discriminate H].
    destruct (bind (read nm) spread) as [lm |]; [| discriminate H].
    cbn [bind] in H. injection H as <-. split; reflexivity.
Qed.


(** With a minimum role that names no property at all, the gate lets
    through every user whose role is a known role or names no property. *)
Lemma requireMinRole_plain_unknown_admits (minimumRole : string) (u : user) :
  plain_unknown minimumRole ->
  isValidRole (to_key (user_role u)) = true
  \/ plain_unknown (to_key (user_role u)) ->
  requireMinRole minimumRole u = Next.
Proof.
  intros Hm Hu. unfold requireMinRole.
  rewrite (plain_unknown_level minimumRole Hm).
  destruct Hu as [Hu | Hu].
  - apply isValidRole_inv in Hu.
    destruct Hu as [-> | [-> | [-> | ->]]]; reflexivity.
  - rewrite (plain_unknown_level _ Hu). reflexivity.
Qed.

End RbacProofs.

(** * Properties of the session service *)
Module SessionProofs.
Import Store SessionService.

(** ** Lists and strings *)

Lemma filter_none {A : Type} (f : A -> bool) (l : list A) :
  (forall x, In x l -> f x = false) -> filter f l = [].
Proof.
  induction l as [| a l IH]; intros H; simpl; [reflexivity |].
  rewrite (H a (or_introl eq_refl)). apply IH.
  intros x Hx. apply H. now right.
Qed.

Lemma existsb_false_In {A : Type} (f : A -> bool) (l : list A) :
  existsb f l = false -> forall x, In x l -> f x = false.
Proof.
  intros H x Hx. destruct (f x) eqn:E; [| reflexivity].
  assert (existsb f l = true) by (apply existsb_exists; eauto).
  congruence.
Qed.

Lemma length_append (a b : string) :
  String.length (a ++ b) = String.length a + String.length b.
Proof.
  induction a as [| c a IH]; simpl; [reflexivity | now rewrite IH].
Qed.

Lemma length_substring (s : string) :
  forall n m,
    String.length (String.substring n m s) = Nat.min m (String.length s - n).
Proof.
  induction s as [| c s IH]; intros n m.
  - destruct n, m; simpl; lia.
  - destruct n as [| n].
    + destruct m as [| m]; simpl; [reflexivity |].
      rewrite IH. simpl. lia.
    + simpl. apply IH.
Qed.

Lemma sql_eq_uuid (c : option uuid) (p : uuid) :
  sql_eq N.eqb c p = true <-> c = Some p.
Proof.
  destruct c as [a |]; simpl.
  - rewrite N.eqb_eq. split; congruence.
  - split; discriminate.
Qed.

Lemma sql_eq_string (c : option string) (p : string) :
  sql_eq String.eqb c p = true <-> c = Some p.
Proof.
  destruct c as [a |]; simpl.
  - rewrite String.eqb_eq. split; congruence.
  - split; discriminate.
Qed.

(** ** Tokens *)

Lemma byte_to_hex_shape (b : Byte.byte) :
  exists c1 c2,
    byte_to_hex b = String c1 (String c2 EmptyString)
    /\ is_lower_hex c1 = true /\ is_lower_hex c2 = true.
Proof.
  eexists; eexists; split; [reflexivity |].
  destruct b; split; reflexivity.
Qed.

Lemma toString_hex_length (buf : list Byte.byte) :
  String.length (toString_hex buf) = 2 * List.length buf.
Proof.
  induction buf as [| b buf IH]; simpl; [reflexivity |].
  rewrite IH. lia.
Qed.

Lemma toString_hex_alphabet (buf : list Byte.byte) :
  forallb is_lower_hex (list_ascii_of_string (toString_hex buf)) = true.
Proof.
  induction buf as [| b buf IH]; [reflexivity |].
  destruct (byte_to_hex_shape b) as (c1 & c2 & E & H1 & H2).
  cbn [toString_hex]. rewrite E. cbn [append list_ascii_of_string forallb].
  now rewrite H1, H2, IH.
Qed.

Lemma generateSessionToken_eq (e : entropy) :
  fst (generateSessionToken e)
  = toString_hex (map (source e) (seq (drawn e) 64)).
Proof. reflexivity. Qed.

Lemma generateSessionToken_length (e : entropy) :
  String.length (fst (generateSessionToken e)) = 128.
Proof.
  rewrite generateSessionToken_eq.
  rewrite toString_hex_length, length_map, length_seq. reflexivity.
Qed.

(** C9. Every call to [generateSessionToken] returns a string of exactly
    128 characters, each of them in [[0-9a-f]]. *)
Theorem generateSessionToken_128_lower_hex (e : entropy) :
  String.length (fst (generateSessionToken e)) = 128
  /\ forallb is_lower_hex (list_ascii_of_string (fst (generateSessionToken e)))
     = true.
Proof.
  split.
  - apply generateSessionToken_length.
  - rewrite generateSessionToken_eq. apply toString_hex_alphabet.
Qed.

(** ** Creation and validation *)

(** The row that [createSession] sends to the store. *)
Lemma createSession_inv cfg userId md date_now now new_id e db r db' e' :
  createSession cfg userId md date_now now new_id e db
  = (Resolved (r, db'), e') ->
  let row :=
    mkSessionsRow new_id (Some userId) (fst (generateSessionToken e))
      (or_null (ip md)) (or_null (userAgent md)) (or_null (deviceInfo md))
      (Some "active") (date_now + session_lifetime cfg)%Z
      (Some now) (Some now) None in
  r = returning_created row
  /\ db' = with_sessions db (sessions db ++ [row])
  /\ (forall s, In s (sessions db) -> N.eqb (id s) new_id = false)
  /\ (forall s, In s (sessions db) ->
        String.eqb (session_token s) (fst (generateSessionToken e)) = false)
  /\ (exists u, In u (users db) /\ u_id u = userId).
Proof.
  unfold createSession.
  destruct (generateSessionToken e) as [tok e1] eqn:G. cbn [fst].
  unfold insert_session. cbn [id session_token user_id].
  destruct (existsb (fun s => N.eqb (id s) new_id) (sessions db)) eqn:E1;
    [discriminate |].
  destruct (existsb (fun s => String.eqb (session_token s) tok) (sessions db))
    eqn:E2; [discriminate |].
  destruct (existsb (fun u => N.eqb (u_id u) userId) (users db)) eqn:E3;
    cbn [negb]; [| discriminate].
  intros H. injection H as <- <- <-.
  repeat split.
  - intros s Hs. exact (existsb_false_In _ _ E1 s Hs).
  - intros s Hs. exact (existsb_false_In _ _ E2 s Hs).
  - apply existsb_exists in E3. destruct E3 as (u & Hu & Eu).
    apply N.eqb_eq in Eu. eauto.
Qed.

Lemma token_is_not_a_status (e : entropy) :
  String.eqb "active" (fst (generateSessionToken e)) = false.
Proof.
  apply String.eqb_neq. intros H.
  pose proof (generateSessionToken_length e) as L.
  rewrite <- H in L. discriminate.
Qed.

Lemma token_is_truthy (e : entropy) :
  Js.truthy_field (Js.Str (fst (generateSessionToken e))) = true.
Proof.
  unfold Js.truthy_field. apply negb_true_iff, String.eqb_neq. intros H.
  pose proof (generateSessionToken_length e) as L.
  rewrite H in L. discriminate.
Qed.

(** The outcomes of [validateSession] that are [null] by the guard, by the
    token matching no row, and by the expiry test. *)
Lemma validateSession_null_cases (token : Js.field) (now : timestamp) db :
  Js.truthy_field token = false
  \/ (forall s, In s (sessions db) -> session_token s <> Js.to_key token)
  \/ (forall s, In s (sessions db) -> session_token s = Js.to_key token ->
        (expires_at s <= now)%Z) ->
  validateSession token now db = None.
Proof.
  unfold validateSession. intros [H | H]; [now rewrite H |].
  destruct (Js.truthy_field token); [| reflexivity]. cbn [negb].
  unfold validateSession_query.
  rewrite filter_none; [reflexivity |].
  intros s Hs.
  destruct (String.eqb_spec (session_token s) (Js.to_key token)) as [E | E];
    [| reflexivity].
  destruct H as [H | H]; [destruct (H s Hs E) |].
  specialize (H s Hs E).
  replace (now <? expires_at s)%Z with false by (symmetry; apply Z.ltb_ge; lia).
  apply andb_false_r.
Qed.

(** C1, on every session that [createSession] stores: the row is there with
    the token handed out, owned by the user, [active], and with [expires_at]
    one lifetime after the creation; and at every instant, also before
    [expires_at], [validateSession] on that token returns [null], because
    the query compares [status] with the token. *)
Theorem validateSession_null_for_created_session
  cfg userId md date_now now new_id e db r db' e' (later : timestamp) :
  createSession cfg userId md date_now now new_id e db
  = (Resolved (r, db'), e') ->
  (exists s,
      In s (sessions db')
      /\ id s = c_id r
      /\ session_token s = c_session_token r
      /\ user_id s = Some userId
      /\ status s = Some "active"
      /\ expires_at s = (date_now + session_lifetime cfg)%Z)
  /\ validateSession (Js.Str (c_session_token r)) later db' = None.
Proof.
  intros H. apply createSession_inv in H. cbv zeta in H.
  destruct H as (-> & -> & _ & Htok & _). split.
  - eexists. split.
    + cbn [sessions with_sessions]. apply in_or_app. right. left. reflexivity.
    + repeat split.
  - unfold validateSession. cbn [returning_created c_session_token session_token].
    rewrite token_is_truthy. cbn [negb Js.to_key].
    unfold validateSession_query. cbn [sessions with_sessions].
    rewrite filter_none; [reflexivity |].
    intros s Hs. apply in_app_or in Hs. destruct Hs as [Hs | [<- | []]].
    + rewrite (Htok s Hs). reflexivity.
    + cbn [session_token status sql_eq]. rewrite token_is_not_a_status.
      rewrite andb_false_r. reflexivity.
Qed.

(** ** Revocation of one session *)

Lemma update_where_rows cond set rows :
  fst (update_where cond set rows)
  = map (fun s => if cond s then set s else s) rows.
Proof. reflexivity. Qed.

Lemma update_where_rowCount cond set rows :
  snd (update_where cond set rows) = List.length (filter cond rows).
Proof. reflexivity. Qed.

Lemma revokeSession_eq sessionId userId now db :
  revokeSession sessionId userId now db
  = ((0 <? List.length
             (filter (fun s => N.eqb (id s) sessionId
                               && sql_eq N.eqb (user_id s) userId)
                (sessions db)))%nat,
     with_sessions db
       (map (fun s =>
               if N.eqb (id s) sessionId && sql_eq N.eqb (user_id s) userId
               then set_status_revoked "revoked" now s else s)
          (sessions db))).
Proof. reflexivity. Qed.

(** A row with that [id] owned by [userId] is all the update asks for. *)
Lemma revokeSession_true_when_owned db s userId (now : timestamp) :
  In s (sessions db) ->
  user_id s = Some userId ->
  fst (revokeSession (id s) userId now db) = true
  /\ In (set_status_revoked "revoked" now s)
       (sessions (snd (revokeSession (id s) userId now db))).
Proof.
  intros Hin Hown. rewrite revokeSession_eq. cbn [fst snd].
  assert (Hc : N.eqb (id s) (id s) && sql_eq N.eqb (user_id s) userId = true).
  { rewrite N.eqb_refl. now apply sql_eq_uuid. }
  split.
  - apply Nat.ltb_lt.
    assert (Hf : In s (filter (fun x => N.eqb (id x) (id s)
                                        && sql_eq N.eqb (user_id x) userId)
                         (sessions db)))
      by (apply filter_In; split; assumption).
    destruct (filter _ (sessions db)); [destruct Hf | simpl; lia].
  - cbn [sessions with_sessions]. apply in_map_iff.
    exists s. rewrite Hc. split; [reflexivity | assumption].
Qed.

Lemma map_unchanged {A : Type} (f : A -> A) (l : list A) :
  (forall x, In x l -> f x = x) -> map f l = l.
Proof.
  induction l as [| a l IH]; intros H; simpl; [reflexivity |].
  rewrite (H a (or_introl eq_refl)), IH; [reflexivity |].
  intros x Hx. apply H. now right.
Qed.

(** No row with that [id] owned by [userId]: [false], store untouched. *)
Lemma revokeSession_false_when_not_owned db sessionId userId now :
  (forall s, In s (sessions db) -> id s = sessionId ->
             user_id s <> Some userId) ->
  revokeSession sessionId userId now db = (false, db).
Proof.
  intros H. rewrite revokeSession_eq.
  assert (Hc : forall s, In s (sessions db) ->
                 N.eqb (id s) sessionId && sql_eq N.eqb (user_id s) userId
                 = false).
  { intros s Hs. destruct (N.eqb_spec (id s) sessionId) as [E | E];
      [| reflexivity].
    cbn [andb]. destruct (sql_eq N.eqb (user_id s) userId) eqn:U;
      [| reflexivity].
    apply sql_eq_uuid in U. destruct (H s Hs E U). }
  rewrite filter_none by exact Hc.
  rewrite map_unchanged.
  - destruct db; reflexivity.
  - intros s Hs. now rewrite (Hc s Hs).
Qed.

(** C3, on a session that is not active: when the row with that [id]
    belongs to [userId], [revokeSession] returns [true] although the status
    is not [active], and the row is rewritten with status [revoked] and a
    fresh [revoked_at]. *)
Theorem revokeSession_true_on_non_active_session
  db s userId (now : timestamp) :
  In s (sessions db) ->
  user_id s = Some userId ->
  status s <> Some "active" ->
  fst (revokeSession (id s) userId now db) = true
  /\ In (set_status_revoked "revoked" now s)
       (sessions (snd (revokeSession (id s) userId now db))).
Proof.
  intros Hin Hown _. now apply revokeSession_true_when_owned.
Qed.

(** ** The status of a session along a sequence of calls *)

Lemma find_id_map (f : sessions_row -> sessions_row) i rows :
  (forall s, id (f s) = id s) ->
  find (fun s => N.eqb (id s) i) (map f rows)
  = option_map f (find (fun s => N.eqb (id s) i) rows).
Proof.
  intros Hid. induction rows as [| a rows IH]; [reflexivity |].
  cbn [map find]. rewrite Hid.
  destruct (N.eqb (id a) i); [reflexivity | exact IH].
Qed.

Lemma session_by_id_update i cond set db :
  (forall s, id (set s) = id s) ->
  session_by_id i (with_sessions db (fst (update_where cond set (sessions db))))
  = option_map (fun s => if cond s then set s else s) (session_by_id i db).
Proof.
  intros Hid. unfold session_by_id. cbn [sessions with_sessions].
  rewrite update_where_rows. apply find_id_map.
  intros s. destruct (cond s); [apply Hid | reflexivity].
Qed.

Lemma find_app_found {A : Type} (f : A -> bool) (l l' : list A) (x : A) :
  find f l = Some x -> find f (l ++ l') = Some x.
Proof.
  induction l as [| a l IH]; [discriminate |].
  cbn [find app]. destruct (f a); [trivial | exact IH].
Qed.

Lemma session_by_id_id i db s :
  session_by_id i db = Some s -> id s = i.
Proof.
  intros H. apply find_some in H. now apply N.eqb_eq.
Qed.

(** C4, on an expired session: a call of [revokeSession] by the owner
    moves the session from [expired] to [revoked], so [expired] is not a
    terminal status. *)
Theorem expired_session_becomes_revoked
  db i s userId (now : timestamp) :
  session_by_id i db = Some s ->
  user_id s = Some userId ->
  status s = Some "expired" ->
  status_of i db = Some (Some "expired")
  /\ status_of i (run [RevokeSession i userId now] db)
     = Some (Some "revoked").
Proof.
  intros Hs Hown Hst. unfold status_of. split.
  - rewrite Hs. cbn. now rewrite Hst.
  - cbn [run fold_left apply].
    change (snd (revokeSession i userId now db))
      with (with_sessions db
              (fst (update_where
                      (fun x => N.eqb (id x) i
                                && sql_eq N.eqb (user_id x) userId)
                      (set_status_revoked "revoked" now) (sessions db)))).
    rewrite session_by_id_update by reflexivity.
    rewrite Hs. cbn [option_map].
    rewrite (session_by_id_id _ _ _ Hs), N.eqb_refl.
    rewrite (proj2 (sql_eq_uuid _ _) Hown). reflexivity.
Qed.

(** Every other call keeps a [revoked] or [expired] status as it is, and
    [revokeSession] keeps [revoked]. *)
Lemma terminal_status_kept_by_other_calls op db i st :
  status_of i db = Some (Some st) ->
  st = "revoked" \/ st = "expired" ->
  (forall sessionId userId now,
      op = RevokeSession sessionId userId now -> st = "revoked") ->
  status_of i (apply op db) = Some (Some st).
Proof.
  intros H Hterm Hop. unfold status_of in *.
  destruct (session_by_id i db) as [s |] eqn:Hs; [| discriminate].
  cbn [option_map] in H. injection H as Hst.
  assert (Hna : sql_eq String.eqb (status s) "active" = false).
  { rewrite Hst. destruct Hterm as [-> | ->]; reflexivity. }
  destruct op; cbn [apply]; try (rewrite Hs; cbn; now rewrite Hst).
  - (* createSession *)
    destruct (fst (createSession _ _ _ _ _ _ _ db)) as [[r db'] | err] eqn:E;
      [| rewrite Hs; cbn; now rewrite Hst].
    destruct (createSession cookie_max_age userId md date_now now new_id e db)
      as [res e'] eqn:C.
    cbn [fst] in E. subst res. apply createSession_inv in C. cbv zeta in C.
    destruct C as (_ & -> & _).
    unfold session_by_id in *. cbn [sessions with_sessions].
    rewrite (find_app_found _ _ _ _ Hs). cbn. now rewrite Hst.
  - (* updateSessionActivity *)
    unfold updateSessionActivity.
    rewrite session_by_id_update by reflexivity. rewrite Hs. cbn [option_map].
    destruct (N.eqb (id s) sessionId); cbn; now rewrite Hst.
  - (* revokeSession *)
    specialize (Hop _ _ _ eq_refl). subst st.
    change (snd (revokeSession sessionId userId now db))
      with (with_sessions db
              (fst (update_where
                      (fun x => N.eqb (id x) sessionId
                                && sql_eq N.eqb (user_id x) userId)
                      (set_status_revoked "revoked" now) (sessions db)))).
    rewrite session_by_id_update by reflexivity. rewrite Hs. cbn [option_map].
    destruct (_ && _); cbn; [reflexivity | now rewrite Hst].
  - (* revokeAllSessions *)
    unfold revokeAllSessions. rewrite (surjective_pairing (update_where _ _ _)).
    cbn [snd]. rewrite session_by_id_update by reflexivity.
    rewrite Hs. cbn [option_map].
    unfold SESSION_STATUS_ACTIVE. rewrite Hna, andb_false_r. cbn.
    now rewrite Hst.
  - (* revokeSessionsByType *)
    unfold revokeSessionsByType.
    rewrite (surjective_pairing (update_where _ _ _)).
    cbn [snd]. rewrite session_by_id_update by reflexivity.
    rewrite Hs. cbn [option_map].
    unfold SESSION_STATUS_ACTIVE. rewrite Hna, andb_false_r. cbn.
    now rewrite Hst.
  - (* cleanupExpiredSessions *)
    unfold cleanupExpiredSessions.
    rewrite (surjective_pairing (update_where _ _ _)).
    cbn [snd]. rewrite session_by_id_update by reflexivity.
    rewrite Hs. cbn [option_map].
    unfold SESSION_STATUS_ACTIVE. rewrite Hna. cbn. now rewrite Hst.
Qed.

Lemma terminal_status_kept_along ops : forall db i st,
  status_of i db = Some (Some st) ->
  st = "revoked" \/ st = "expired" ->
  Forall (fun op => forall sessionId userId now,
              op <> RevokeSession sessionId userId now) ops ->
  status_of i (run ops db) = Some (Some st).
Proof.
  induction ops as [| op ops IH]; intros db i st H Hterm Hall; [exact H |].
  inversion Hall as [| ? ? Hop Hrest]; subst.
  cbn [run fold_left]. apply IH; [| exact Hterm | exact Hrest].
  apply terminal_status_kept_by_other_calls; [exact H | exact Hterm |].
  intros sid uid now E. destruct (Hop sid uid now E).
Qed.

(** ** Token masking *)

Lemma js_substring_length (s : string) (a b : Z) :
  (0 <= a)%Z -> (a <= b)%Z -> (b <= Z.of_nat (String.length s))%Z ->
  String.length (js_substring s a b) = Z.to_nat (b - a).
Proof.
  intros Ha Hab Hb. unfold js_substring.
  rewrite (Z.max_l a 0) by exact Ha.
  rewrite (Z.max_l b 0) by (now apply Z.le_trans with a).
  rewrite (Z.min_l a) by (now apply Z.le_trans with b).
  rewrite (Z.min_l b) by exact Hb.
  rewrite (Z.min_l a b), (Z.max_r a b) by exact Hab.
  rewrite length_substring.
  apply Nat.min_l.
  rewrite Z2Nat.inj_sub by exact Ha.
  apply Nat.sub_le_mono_r.
  rewrite <- (Nat2Z.id (String.length s)).
  apply Z2Nat.inj_le; [now apply Z.le_trans with a | apply Nat2Z.is_nonneg | exact Hb].
Qed.

Lemma mask_token_length (t : string) :
  (8 <= String.length t)%nat -> String.length (mask_token t) = 19%nat.
Proof.
  intros H. unfold mask_token, js_substring_from.
  assert (H8 : (8 <= Z.of_nat (String.length t))%Z).
  { change 8%Z with (Z.of_nat 8). now apply Nat2Z.inj_le. }
  rewrite !length_append.
  rewrite (js_substring_length t 0 8);
    [| apply Z.le_refl | discriminate | exact H8].
  rewrite (js_substring_length t (Z.of_nat (String.length t) - 8)
             (Z.of_nat (String.length t)));
    [| now apply Z.le_0_sub
     | apply Z.le_sub_nonneg; discriminate
     | apply Z.le_refl].
  replace (Z.of_nat (String.length t) - (Z.of_nat (String.length t) - 8))%Z
    with 8%Z by ring.
  reflexivity.
Qed.

Lemma In_firstn {A : Type} (n : nat) : forall (l : list A) (x : A),
  In x (firstn n l) -> In x l.
Proof.
  induction n as [| n IH]; intros [| a l] x H; simpl in H; try contradiction.
  destruct H as [-> | H]; [now left | right; now apply IH].
Qed.

Lemma In_skipn {A : Type} (n : nat) : forall (l : list A) (x : A),
  In x (skipn n l) -> In x l.
Proof.
  induction n as [| n IH]; intros [| a l] x H; simpl in H;
    try contradiction; try exact H.
  right. now apply IH.
Qed.

Lemma In_insert_desc s x sorted :
  In x (insert_desc s sorted) -> x = s \/ In x sorted.
Proof.
  induction sorted as [| t rest IH]; simpl.
  - intros [<- | []]. now left.
  - destruct (last_active_geb s t); simpl.
    + intros [<- | H]; [now left | now right].
    + intros [<- | H]; [right; now left |].
      destruct (IH H) as [-> | H']; [now left | right; now right].
Qed.

Lemma In_order_by rows x :
  In x (order_by_last_active_desc rows) -> In x rows.
Proof.
  induction rows as [| a rows IH]; simpl; [trivial |].
  intros H. apply In_insert_desc in H.
  destruct H as [-> | H]; [now left | right; now apply IH].
Qed.

(** Every record listed by [getUserSessions] is a stored session of the
    user with its token masked. *)
Lemma getUserSessions_masks userId opts db res :
  getUserSessions userId opts db = Resolved res ->
  forall r, In r (us_sessions res) ->
    exists s,
      In s (sessions db)
      /\ user_id s = Some userId
      /\ l_id r = id s
      /\ l_session_token r = mask_token (session_token s).
Proof.
  unfold getUserSessions, limit_offset.
  destruct (_ <? 0)%Z; [discriminate |].
  destruct (_ <? 0)%Z; [discriminate |].
  intros H. injection H as <-. cbn [us_sessions].
  intros r Hr. apply in_map_iff in Hr. destruct Hr as (v & <- & Hv).
  apply In_firstn, In_skipn in Hv.
  apply in_map_iff in Hv. destruct Hv as (s & <- & Hs).
  apply In_order_by, filter_In in Hs. destruct Hs as [Hs Hw].
  unfold whereClause in Hw. apply andb_true_iff in Hw.
  exists s. repeat split; [exact Hs | now apply sql_eq_uuid].
Qed.

(** C5, on [getSessionById]: the record it returns for a stored session of
    the user carries the stored [session_token] itself; for a token of 128
    characters that is not the masked form, which has 19. *)
Theorem getSessionById_returns_raw_token db sessionId userId r :
  getSessionById sessionId userId db = Some r ->
  exists s,
    In s (sessions db)
    /\ id s = sessionId
    /\ user_id s = Some userId
    /\ l_session_token r = session_token s
    /\ (String.length (session_token s) = 128 ->
        l_session_token r <> mask_token (session_token s)).
Proof.
  unfold getSessionById.
  destruct (filter _ (sessions db)) as [| s rest] eqn:F; [discriminate |].
  intros H. injection H as <-.
  assert (Hin : In s (filter (fun x => N.eqb (id x) sessionId
                                       && sql_eq N.eqb (user_id x) userId)
                        (sessions db)))
    by (rewrite F; now left).
  apply filter_In in Hin. destruct Hin as [Hin Hc].
  apply andb_true_iff in Hc. destruct Hc as [Hid Hown].
  exists s. repeat split.
  - exact Hin.
  - now apply N.eqb_eq.
  - now apply sql_eq_uuid.
  - cbn [select_listed l_session_token]. intros L E.
    assert (M : String.length (mask_token (session_token s)) = 19)
      by (apply mask_token_length; lia).
    rewrite <- E in M. lia.
Qed.

(** ** Revocation of all sessions of a user *)

Lemma revokeAllSessions_eq userId ex now db :
  revokeAllSessions userId ex now db
  = (List.length
       (filter (fun s => sql_eq N.eqb (user_id s) userId
                         && sql_eq String.eqb (status s) "active"
                         && match ex with
                            | Some x => negb (N.eqb (id s) x)
                            | None => true
                            end)
          (sessions db)),
     with_sessions db
       (map (fun s =>
               if sql_eq N.eqb (user_id s) userId
                  && sql_eq String.eqb (status s) "active"
                  && match ex with
                     | Some x => negb (N.eqb (id s) x)
                     | None => true
                     end
               then set_status_revoked "revoked" now s else s)
          (sessions db))).
Proof. reflexivity. Qed.

Lemma to_revoke_iff userId ex s :
  sql_eq N.eqb (user_id s) userId
  && sql_eq String.eqb (status s) "active"
  && match ex with
     | Some x => negb (N.eqb (id s) x)
     | None => true
     end = true
  <-> to_revoke userId ex s.
Proof.
  unfold to_revoke.
  rewrite !andb_true_iff, sql_eq_uuid, sql_eq_string.
  assert (Hex : match ex with
                | Some x => negb (N.eqb (id s) x)
                | None => true
                end = true <-> ex <> Some (id s)).
  { destruct ex as [x |]; [| split; [discriminate | reflexivity]].
    rewrite negb_true_iff, N.eqb_neq. split; intros H E.
    - injection E as ->. now apply H.
    - apply H. now subst. }
  rewrite Hex. tauto.
Qed.

Section RevokeAll.
Variables (userId : uuid) (ex : option uuid) (now : timestamp).

Let cond (s : sessions_row) : bool :=
  sql_eq N.eqb (user_id s) userId
  && sql_eq String.eqb (status s) "active"
  && match ex with
     | Some x => negb (N.eqb (id s) x)
     | None => true
     end.

Let rewrite_row (s : sessions_row) : sessions_row :=
  if cond s then set_status_revoked "revoked" now s else s.

Lemma cond_iff s : cond s = true <-> to_revoke userId ex s.
Proof. exact (to_revoke_iff userId ex s). Qed.

Lemma revokeAll_rowwise rows :
  Forall2 (revoked_or_kept userId ex now) rows (map rewrite_row rows).
Proof.
  induction rows as [| s rows IH]; constructor; [| exact IH].
  unfold revoked_or_kept, rewrite_row.
  destruct (cond s) eqn:C.
  - left. split; [now apply cond_iff | reflexivity].
  - right. split; [| reflexivity].
    intros H. apply cond_iff in H. congruence.
Qed.

Lemma revokeAll_rowCount rows :
  List.length (filter cond rows) = affected rows (map rewrite_row rows).
Proof.
  unfold affected.
  induction rows as [| s rows IH]; [reflexivity |].
  cbn [filter map combine]. unfold rewrite_row at 1.
  destruct (cond s) eqn:C.
  - assert (Hst : status s = Some "active")
      by (apply cond_iff in C; apply C).
    unfold status_changed at 1. cbn [fst snd set_status_revoked status].
    rewrite Hst. cbn. now rewrite IH.
  - unfold status_changed at 1. cbn [fst snd].
    destruct (status s) as [a |]; [rewrite String.eqb_refl |]; cbn; exact IH.
Qed.

Lemma revokeAll_rowCount_zero rows :
  (forall s, In s rows -> user_id s = Some userId ->
             status s <> Some "active") ->
  List.length (filter cond rows) = 0.
Proof.
  intros H. rewrite filter_none; [reflexivity |].
  intros s Hs. destruct (cond s) eqn:C; [| reflexivity].
  apply cond_iff in C. destruct C as (Hu & Ha & _).
  destruct (H s Hs Hu Ha).
Qed.

End RevokeAll.

Lemma countActiveSessions_after_revokeAll userId now later db :
  countActiveSessions userId later
    (snd (revokeAllSessions userId None now db)) = 0.
Proof.
  rewrite revokeAllSessions_eq. cbn [snd].
  unfold countActiveSessions. cbn [sessions with_sessions].
  rewrite filter_none; [reflexivity |].
  intros s' Hs'. apply in_map_iff in Hs'. destruct Hs' as (s & <- & _).
  rewrite andb_true_r. unfold SESSION_STATUS_ACTIVE.
  destruct (sql_eq N.eqb (user_id s) userId
            && sql_eq String.eqb (status s) "active") eqn:C.
  - cbn [set_status_revoked user_id status sql_eq].
    replace (String.eqb "revoked" "active") with false by reflexivity.
    now rewrite andb_false_r.
  - now rewrite C.
Qed.

Lemma countActiveSessions_after_create
  cfg userId md date_now now new_id e db r db1 e1 (later : timestamp) :
  createSession cfg userId md date_now now new_id e db
  = (Resolved (r, db1), e1) ->
  (later < date_now + session_lifetime cfg)%Z ->
  countActiveSessions userId later db1
  = S (countActiveSessions userId later db).
Proof.
  intros H Hlt. apply createSession_inv in H. cbv zeta in H.
  destruct H as (_ & -> & _).
  unfold countActiveSessions. cbn [sessions with_sessions].
  rewrite filter_app, length_app.
  cbn [filter user_id status expires_at sql_eq].
  rewrite N.eqb_refl. unfold SESSION_STATUS_ACTIVE.
  rewrite String.eqb_refl, (proj2 (Z.ltb_lt _ _) Hlt).
  cbn. lia.
Qed.

(** C8. On every store, [revokeAllSessions(userId, excludeSessionId)]
    rewrites to [revoked] exactly the rows that belong to the user, are
    [active] and are not the spared session, leaves every other row as it
    was, and returns the number of rows whose status changed, which is 0
    when the user has no active session.  After a [createSession] for a user
    without live sessions, [countActiveSessions] returns 1 while the session
    has not expired, and after [revokeAllSessions] without exclusion it
    returns 0. *)
Theorem revokeAllSessions_revokes_active_and_counts
  cfg userId md date_now now new_id e db r db1 e1
  (t1 t2 t3 : timestamp) (d : database) (ex : option uuid) :
  createSession cfg userId md date_now now new_id e db
  = (Resolved (r, db1), e1) ->
  countActiveSessions userId t1 db = 0 ->
  (t1 < date_now + session_lifetime cfg)%Z ->
  Forall2 (revoked_or_kept userId ex t2) (sessions d)
    (sessions (snd (revokeAllSessions userId ex t2 d)))
  /\ fst (revokeAllSessions userId ex t2 d)
     = affected (sessions d)
         (sessions (snd (revokeAllSessions userId ex t2 d)))
  /\ ((forall s, In s (sessions d) -> user_id s = Some userId ->
                 status s <> Some "active") ->
      fst (revokeAllSessions userId ex t2 d) = 0)
  /\ countActiveSessions userId t1 db1 = 1
  /\ countActiveSessions userId t3
       (snd (revokeAllSessions userId None t2 db1)) = 0.
Proof.
  intros Hc H0 Hlt.
  split; [| split; [| split; [| split]]].
  - rewrite revokeAllSessions_eq. cbn [snd sessions with_sessions].
    apply revokeAll_rowwise.
  - rewrite revokeAllSessions_eq. cbn [fst snd sessions with_sessions].
    apply revokeAll_rowCount.
  - intros H. rewrite revokeAllSessions_eq. cbn [fst].
    now apply revokeAll_rowCount_zero.
  - rewrite (countActiveSessions_after_create _ _ _ _ _ _ _ _ _ _ _ _ Hc Hlt).
    now rewrite H0.
  - apply countActiveSessions_after_revokeAll.
Qed.

(** ** The theorems at sample inputs *)
Section Witnesses.
Import Examples.

Lemma validateSession_null_for_created_session_witness :
  exists r e',
    first_login = (Resolved (r, store_after_login), e')
    /\ (2000 < c_expires_at r)%Z
    /\ validateSession (Js.Str (c_session_token r)) 2000 store_after_login
       = None.
Proof.
  eexists. eexists. split; [reflexivity |]. split; [reflexivity |].
  eapply (validateSession_null_for_created_session
            None 1%N no_metadata 1000%Z 1000%Z 7%N counting_entropy
            fresh_store _ store_after_login _ 2000%Z).
  reflexivity.
Defined.

Lemma revokeSession_true_on_non_active_session_witness :
  fst (revokeSession 10 1 200 store_with_revoked) = true
  /\ In (set_status_revoked "revoked" 200 revoked_row)
       (sessions (snd (revokeSession 10 1 200 store_with_revoked))).
Proof.
  apply (revokeSession_true_on_non_active_session
           store_with_revoked revoked_row 1%N 200%Z);
    [now left | reflexivity | discriminate].
Defined.

Lemma expired_session_becomes_revoked_witness :
  status_of 11 store_with_expired = Some (Some "expired")
  /\ status_of 11 (run [RevokeSession 11 1 200] store_with_expired)
     = Some (Some "revoked").
Proof.
  apply (expired_session_becomes_revoked
           store_with_expired 11%N expired_row 1%N 200%Z);
    reflexivity.
Defined.

Lemma getSessionById_returns_raw_token_witness :
  exists r,
    getSessionById 7 1 store_after_login = Some r
    /\ exists s,
        In s (sessions store_after_login)
        /\ id s = 7%N
        /\ user_id s = Some 1%N
        /\ l_session_token r = session_token s
        /\ (String.length (session_token s) = 128 ->
            l_session_token r <> mask_token (session_token s)).
Proof.
  eexists. split; [reflexivity |].
  apply (getSessionById_returns_raw_token store_after_login 7%N 1%N).
  reflexivity.
Defined.

Lemma revokeAllSessions_revokes_active_and_counts_witness :
  Forall2 (revoked_or_kept 1%N (Some 21%N) 3000%Z) (sessions two_devices)
    (sessions (snd (revokeAllSessions 1 (Some 21%N) 3000 two_devices)))
  /\ fst (revokeAllSessions 1 (Some 21%N) 3000 two_devices)
     = affected (sessions two_devices)
         (sessions (snd (revokeAllSessions 1 (Some 21%N) 3000 two_devices)))
  /\ ((forall s, In s (sessions two_devices) -> user_id s = Some 1%N ->
                 status s <> Some "active") ->
      fst (revokeAllSessions 1 (Some 21%N) 3000 two_devices) = 0)
  /\ countActiveSessions 1 2000 store_after_login = 1
  /\ countActiveSessions 1 4000
       (snd (revokeAllSessions 1 None 3000 store_after_login)) = 0.
Proof.
  eapply (revokeAllSessions_revokes_active_and_counts
            None 1%N no_metadata 1000%Z 1000%Z 7%N counting_entropy
            fresh_store _ store_after_login _
            2000%Z 3000%Z 4000%Z two_devices (Some 21%N));
    reflexivity.
Defined.

End Witnesses.

End SessionProofs.

(** * Further properties of the session store *)
Module SessionLaws.
Import Store SessionService Invariants SessionProofs.
Local Open Scope list_scope.

(** ** The shape of one call *)

Lemma rewritten_refl s : rewritten s s.
Proof. unfold rewritten, same_identity. intuition. Qed.

Lemma rewritten_touch now s : rewritten s (set_last_active_at now s).
Proof. unfold rewritten, same_identity. cbn. intuition. Qed.

Lemma rewritten_revoke now s :
  rewritten s (set_status_revoked "revoked" now s).
Proof. unfold rewritten, same_identity. cbn. intuition. Qed.

Lemma rewritten_expire s :
  status s = Some "active" -> rewritten s (set_status "expired" s).
Proof. unfold rewritten, same_identity. cbn. intuition. Qed.

Lemma rewritten_if (c : sessions_row -> bool) (g : sessions_row -> sessions_row) :
  (forall s, c s = true -> rewritten s (g s)) ->
  forall s, rewritten s (if c s then g s else s).
Proof.
  intros H s. destruct (c s) eqn:C; [now apply H | apply rewritten_refl].
Qed.

(** Every call maps the stored rows one by one, and only a resolved
    [createSession] appends a row: an active one, under an [id] and a token
    that no stored row carries. *)
Lemma apply_shape op db :
  exists f extra,
    sessions (apply op db) = map f (sessions db) ++ extra
    /\ users (apply op db) = users db
    /\ (forall s, rewritten s (f s))
    /\ (extra = []
        \/ exists row,
            extra = [row]
            /\ is_create op = true
            /\ status row = Some "active"
            /\ (forall s, In s (sessions db) -> id s <> id row)
            /\ (forall s, In s (sessions db) ->
                  session_token s <> session_token row)).
Proof.
  assert (Hid : forall d : database,
             exists f extra,
               sessions d = map f (sessions d) ++ extra
               /\ users d = users d
               /\ (forall s, rewritten s (f s))
               /\ (extra = []
                   \/ exists row,
                       extra = [row]
                       /\ is_create op = true
                       /\ status row = Some "active"
                       /\ (forall s, In s (sessions d) -> id s <> id row)
                       /\ (forall s, In s (sessions d) ->
                             session_token s <> session_token row))).
  { intros d. exists (fun s => s), []. rewrite map_id, app_nil_r.
    split; [reflexivity | split; [reflexivity | split]];
      [intros s; apply rewritten_refl | now left]. }
  assert (Hmap : forall c g,
             (forall s, c s = true -> rewritten s (g s)) ->
             exists f extra,
               sessions (with_sessions db
                           (fst (update_where c g (sessions db))))
               = map f (sessions db) ++ extra
               /\ users (with_sessions db
                           (fst (update_where c g (sessions db))))
                  = users db
               /\ (forall s, rewritten s (f s))
               /\ (extra = []
                   \/ exists row,
                       extra = [row]
                       /\ is_create op = true
                       /\ status row = Some "active"
                       /\ (forall s, In s (sessions db) -> id s <> id row)
                       /\ (forall s, In s (sessions db) ->
                             session_token s <> session_token row))).
  { intros c g H. exists (fun s => if c s then g s else s), [].
    rewrite app_nil_r. cbn [sessions users with_sessions].
    rewrite update_where_rows.
    split; [reflexivity | split; [reflexivity | split]];
      [now apply rewritten_if | now left]. }
  destruct op; cbn [apply]; try apply Hid.
  - (* createSession *)
    destruct (createSession cookie_max_age userId md date_now now new_id e db)
      as [res e'] eqn:C.
    cbn [fst]. destruct res as [[r db'] | err]; [| apply Hid].
    apply createSession_inv in C. cbv zeta in C.
    destruct C as (_ & -> & Hfresh & Htok & _).
    eexists (fun s => s), [_]. rewrite map_id.
    cbn [sessions users with_sessions].
    split; [reflexivity | split; [reflexivity | split]];
      [intros s; apply rewritten_refl |].
    right. eexists. split; [reflexivity |].
    split; [reflexivity | split; [reflexivity | split]].
    + intros s Hs E. cbn [id] in E.
      specialize (Hfresh s Hs). apply N.eqb_neq in Hfresh. contradiction.
    + intros s Hs E. cbn [session_token] in E.
      specialize (Htok s Hs). apply String.eqb_neq in Htok. contradiction.
  - (* updateSessionActivity *)
    apply Hmap. intros s _. apply rewritten_touch.
  - (* revokeSession *)
    change (snd (revokeSession sessionId userId now db))
      with (with_sessions db
              (fst (update_where
                      (fun x => N.eqb (id x) sessionId
                                && sql_eq N.eqb (user_id x) userId)
                      (set_status_revoked "revoked" now) (sessions db)))).
    apply Hmap. intros s _. apply rewritten_revoke.
  - (* revokeAllSessions *)
    unfold revokeAllSessions.
    rewrite (surjective_pairing (update_where _ _ _)). cbn [snd].
    apply Hmap. intros s _. apply rewritten_revoke.
  - (* revokeSessionsByType *)
    unfold revokeSessionsByType.
    rewrite (surjective_pairing (update_where _ _ _)). cbn [snd].
    apply Hmap. intros s _. apply rewritten_revoke.
  - (* cleanupExpiredSessions *)
    unfold cleanupExpiredSessions.
    rewrite (surjective_pairing (update_where _ _ _)). cbn [snd].
    apply Hmap. intros s Hc. apply rewritten_expire.
    apply andb_true_iff in Hc. destruct Hc as [Hc _].
    now apply sql_eq_string.
Qed.

(** ** Invariants along every sequence of calls *)

Lemma NoDup_snoc {A : Type} (l : list A) (x : A) :
  NoDup l -> ~ In x l -> NoDup (l ++ [x]).
Proof.
  induction l as [| a l IH]; intros Hl Hx; simpl.
  - constructor; [intros [] | constructor].
  - inversion Hl as [| ? ? Ha Hl']; subst. constructor.
    + intros Hin. apply in_app_or in Hin. destruct Hin as [Hin | [-> | []]].
      * contradiction.
      * apply Hx. now left.
    + apply IH; [exact Hl' |]. intros Hin. apply Hx. now right.
Qed.

Lemma map_map_same {A B : Type} (key : A -> B) (f : A -> A) (l : list A) :
  (forall s, key (f s) = key s) -> map key (map f l) = map key l.
Proof.
  intros H. rewrite map_map. apply map_ext. exact H.
Qed.

Lemma apply_unique_keys op db :
  unique_keys db -> unique_keys (apply op db).
Proof.
  intros [Hid Htok].
  destruct (apply_shape op db) as (f & extra & E & _ & Hf & Hextra).
  unfold unique_keys. rewrite E, !map_app.
  rewrite (map_map_same id f) by (intros s; apply (Hf s)).
  rewrite (map_map_same session_token f) by (intros s; apply (Hf s)).
  destruct Hextra as [-> | (row & -> & _ & _ & Hfid & Hftok)].
  - cbn [map]. rewrite !app_nil_r. now split.
  - cbn [map]. split; apply NoDup_snoc; try assumption.
    + intros Hin. apply in_map_iff in Hin. destruct Hin as (s & Es & Hs).
      exact (Hfid s Hs Es).
    + intros Hin. apply in_map_iff in Hin. destruct Hin as (s & Es & Hs).
      exact (Hftok s Hs Es).
Qed.

(** X1. Along every sequence of calls of the service, a table in which no
    two rows share an [id] or a [session_token] stays so: at most one
    session per token. *)
Theorem unique_keys_along ops : forall db,
  unique_keys db -> unique_keys (run ops db).
Proof.
  induction ops as [| op ops IH]; intros db H; [exact H |].
  cbn [run fold_left]. apply IH. now apply apply_unique_keys.
Qed.

Lemma same_identity_trans s1 s2 s3 :
  same_identity s1 s2 -> same_identity s2 s3 -> same_identity s1 s3.
Proof.
  unfold same_identity. intros H1 H2.
  decompose [and] H1. decompose [and] H2.
  repeat split; congruence.
Qed.

Lemma apply_keeps_session op db i s :
  session_by_id i db = Some s ->
  exists s', session_by_id i (apply op db) = Some s' /\ rewritten s s'.
Proof.
  intros Hs.
  destruct (apply_shape op db) as (f & extra & E & _ & Hf & _).
  exists (f s). split; [| apply Hf].
  unfold session_by_id in *. rewrite E.
  apply find_app_found.
  rewrite find_id_map by (intros x; apply (Hf x)).
  now rewrite Hs.
Qed.

(** X2. A stored session is never deleted, and what was fixed at its
    creation never changes: after every sequence of calls the row with that
    [id] is still there with the same owner, token, address, user agent,
    device tag, [expires_at] and [created_at]. *)
Theorem session_identity_kept_along ops : forall db i s,
  session_by_id i db = Some s ->
  exists s', session_by_id i (run ops db) = Some s' /\ same_identity s s'.
Proof.
  induction ops as [| op ops IH]; intros db i s Hs.
  - exists s. split; [exact Hs |]. apply rewritten_refl.
  - cbn [run fold_left].
    destruct (apply_keeps_session op db i s Hs) as (s1 & H1 & R1).
    destruct (IH _ _ _ H1) as (s2 & H2 & I2).
    exists s2. split; [exact H2 |].
    apply same_identity_trans with s1; [apply R1 | exact I2].
Qed.

Lemma filter_map_le {A : Type} (P : A -> bool) (f : A -> A) (l : list A) :
  (forall x, P (f x) = true -> P x = true) ->
  List.length (filter P (map f l)) <= List.length (filter P l).
Proof.
  intros H. induction l as [| a l IH]; [apply le_n |].
  cbn [map filter]. destruct (P (f a)) eqn:E.
  - rewrite (H a E). simpl. lia.
  - destruct (P a); simpl; lia.
Qed.

Lemma countActiveSessions_apply_le op db userId now :
  is_create op = false ->
  countActiveSessions userId now (apply op db)
  <= countActiveSessions userId now db.
Proof.
  intros Hop.
  destruct (apply_shape op db) as (f & extra & E & _ & Hf & Hextra).
  destruct Hextra as [-> | (row & _ & Hc & _)]; [| congruence].
  unfold countActiveSessions. rewrite E, app_nil_r.
  apply filter_map_le. intros s.
  destruct (Hf s) as ((_ & Hu & _ & _ & _ & _ & He & _) & Hst).
  rewrite Hu, He. unfold SESSION_STATUS_ACTIVE.
  rewrite !andb_true_iff, !sql_eq_string.
  intros [[Hown Hact] Hexp]. repeat split; try assumption.
  destruct Hst as [Hst | [Hst | [_ Hst]]]; congruence.
Qed.

(** X3. Only [createSession] makes the count of [countActiveSessions]
    grow: along a sequence of calls without [createSession], the count of a
    user at a given instant never exceeds what it was before. *)
Theorem countActiveSessions_grows_only_by_create ops : forall db userId now,
  Forall (fun op => is_create op = false) ops ->
  countActiveSessions userId now (run ops db)
  <= countActiveSessions userId now db.
Proof.
  induction ops as [| op ops IH]; intros db userId now H; [apply le_n |].
  inversion H as [| ? ? Hop Hrest]; subst. cbn [run fold_left].
  apply Nat.le_trans with (countActiveSessions userId now (apply op db)).
  - now apply IH.
  - now apply countActiveSessions_apply_le.
Qed.

(** ** Expiry sweep and bulk revocation *)

Lemma cleanupExpiredSessions_eq now db :
  cleanupExpiredSessions now db
  = (List.length
       (filter (fun s => sql_eq String.eqb (status s) "active"
                         && (expires_at s <? now)%Z) (sessions db)),
     with_sessions db
       (map (fun s =>
               if sql_eq String.eqb (status s) "active"
                  && (expires_at s <? now)%Z
               then set_status "expired" s else s)
          (sessions db))).
Proof. reflexivity. Qed.

Lemma revokeSessionsByType_eq userId deviceType now db :
  revokeSessionsByType userId deviceType now db
  = (List.length
       (filter (fun s => sql_eq N.eqb (user_id s) userId
                         && sql_eq String.eqb (device_info s) deviceType
                         && sql_eq String.eqb (status s) "active")
          (sessions db)),
     with_sessions db
       (map (fun s =>
               if sql_eq N.eqb (user_id s) userId
                  && sql_eq String.eqb (device_info s) deviceType
                  && sql_eq String.eqb (status s) "active"
               then set_status_revoked "revoked" now s else s)
          (sessions db))).
Proof. reflexivity. Qed.

Lemma with_sessions_twice db rows rows' :
  with_sessions (with_sessions db rows) rows' = with_sessions db rows'.
Proof. reflexivity. Qed.

Lemma filter_map_none {A : Type} (P : A -> bool) (f : A -> A) (l : list A) :
  (forall x, P (f x) = false) -> filter P (map f l) = [].
Proof.
  intros H. apply filter_none. intros y Hy.
  apply in_map_iff in Hy. destruct Hy as (x & <- & _). apply H.
Qed.

Lemma map_map_fixed {A : Type} (f g : A -> A) (l : list A) :
  (forall x, g (f x) = f x) -> map g (map f l) = map f l.
Proof.
  intros H. rewrite map_map. apply map_ext. exact H.
Qed.

(** X4. [cleanupExpiredSessions] is idempotent: right after a sweep, a
    second sweep at the same or an earlier clock reading finds nothing to
    expire, returns 0 and leaves the table as the first sweep left it. *)
Theorem cleanupExpiredSessions_idempotent (now now' : timestamp) db :
  (now' <= now)%Z ->
  cleanupExpiredSessions now' (snd (cleanupExpiredSessions now db))
  = (0, snd (cleanupExpiredSessions now db)).
Proof.
  intros Hle. rewrite (cleanupExpiredSessions_eq now db). cbn [snd].
  rewrite cleanupExpiredSessions_eq. cbn [sessions with_sessions].
  assert (Hdead : forall s,
             (fun x => sql_eq String.eqb (status x) "active"
                       && (expires_at x <? now')%Z)
               (if sql_eq String.eqb (status s) "active"
                   && (expires_at s <? now)%Z
                then set_status "expired" s else s) = false).
  { intros s. cbv beta.
    destruct (sql_eq String.eqb (status s) "active") eqn:A; cbn [andb].
    - destruct (expires_at s <? now)%Z eqn:E.
      + reflexivity.
      + rewrite A. cbn [andb]. apply Z.ltb_ge. apply Z.ltb_ge in E.
        now apply Z.le_trans with now.
    - now rewrite A. }
  rewrite filter_map_none by exact Hdead.
  rewrite with_sessions_twice. f_equal. f_equal.
  apply map_map_fixed. intros s.
  specialize (Hdead s). cbv beta in Hdead. now rewrite Hdead.
Qed.

Lemma filter_map_same_length {A : Type} (P : A -> bool) (f : A -> A)
  (l : list A) :
  (forall x, P (f x) = P x) ->
  List.length (filter P (map f l)) = List.length (filter P l).
Proof.
  intros H. induction l as [| a l IH]; [reflexivity |].
  cbn [map filter]. rewrite H. destruct (P a); simpl; now rewrite IH.
Qed.

(** X5. The sweep changes no answer of [countActiveSessions] from then
    on: at every instant not before the sweep, the count of every user is
    the same with or without the sweep, because the count tests
    [expires_at] itself. *)
Theorem cleanupExpiredSessions_keeps_counts
  (now later : timestamp) userId db :
  (now <= later)%Z ->
  countActiveSessions userId later (snd (cleanupExpiredSessions now db))
  = countActiveSessions userId later db.
Proof.
  intros Hle. rewrite cleanupExpiredSessions_eq. cbn [snd].
  unfold countActiveSessions. cbn [sessions with_sessions].
  apply filter_map_same_length. intros s.
  destruct (sql_eq String.eqb (status s) "active") eqn:A; cbn [andb];
    [| reflexivity].
  destruct (expires_at s <? now)%Z eqn:E; [| reflexivity].
  unfold SESSION_STATUS_ACTIVE.
  cbn [set_status user_id status expires_at sql_eq].
  rewrite A.
  replace (String.eqb "expired" "active") with false by reflexivity.
  replace (later <? expires_at s)%Z with false.
  - now rewrite !andb_false_r.
  - symmetry. apply Z.ltb_ge. apply Z.ltb_lt in E.
    apply Z.lt_le_incl. now apply Z.lt_le_trans with now.
Qed.

(** [revokeAllSessions] is idempotent: a second call for the same user
    and exclusion, at any time, returns 0 and leaves the table as the first
    call left it. *)
Theorem revokeAllSessions_idempotent
  userId ex (now now' : timestamp) db :
  revokeAllSessions userId ex now'
    (snd (revokeAllSessions userId ex now db))
  = (0, snd (revokeAllSessions userId ex now db)).
Proof.
  rewrite (revokeAllSessions_eq userId ex now db). cbn [snd].
  rewrite revokeAllSessions_eq. cbn [sessions with_sessions].
  assert (Hdone : forall s,
             (fun x => sql_eq N.eqb (user_id x) userId
                       && sql_eq String.eqb (status x) "active"
                       && match ex with
                          | Some i => negb (N.eqb (id x) i)
                          | None => true
                          end)
               (if sql_eq N.eqb (user_id s) userId
                   && sql_eq String.eqb (status s) "active"
                   && match ex with
                      | Some i => negb (N.eqb (id s) i)
                      | None => true
                      end
                then set_status_revoked "revoked" now s else s) = false).
  { intros s. cbv beta.
    destruct (sql_eq N.eqb (user_id s) userId
              && sql_eq String.eqb (status s) "active"
              && match ex with
                 | Some i => negb (N.eqb (id s) i)
                 | None => true
                 end) eqn:C; [| exact C].
    cbn [set_status_revoked user_id status id sql_eq].
    replace (String.eqb "revoked" "active") with false by reflexivity.
    now rewrite andb_false_r. }
  rewrite filter_map_none by exact Hdone.
  rewrite with_sessions_twice. f_equal. f_equal.
  apply map_map_fixed. intros s.
  specialize (Hdone s). cbv beta in Hdone. now rewrite Hdone.
Qed.

Lemma filter_split_length {A : Type} (c c1 c2 : A -> bool) (f : A -> A)
  (l : list A) :
  (forall x, c1 x = true -> c x = true /\ c2 (f x) = false) ->
  (forall x, c1 x = false -> f x = x /\ c2 x = c x) ->
  List.length (filter c1 l) + List.length (filter c2 (map f l))
  = List.length (filter c l).
Proof.
  intros H1 H0. induction l as [| a l IH]; [reflexivity |].
  cbn [map filter]. destruct (c1 a) eqn:E.
  - destruct (H1 a E) as [-> ->]. simpl. now rewrite <- IH.
  - destruct (H0 a E) as [-> ->]. destruct (c a); simpl; rewrite <- IH; lia.
Qed.

(** X6. Revoking by device type and then everything is the same as
    revoking everything at once: at one clock reading the two orders leave
    the same table, and the two counts of the first add up to the count of
    the second. *)
Theorem revokeSessionsByType_then_all userId deviceType
  (now : timestamp) db :
  snd (revokeAllSessions userId None now
         (snd (revokeSessionsByType userId deviceType now db)))
  = snd (revokeAllSessions userId None now db)
  /\ fst (revokeSessionsByType userId deviceType now db)
     + fst (revokeAllSessions userId None now
              (snd (revokeSessionsByType userId deviceType now db)))
     = fst (revokeAllSessions userId None now db).
Proof.
  rewrite revokeSessionsByType_eq. cbn [fst snd].
  rewrite !revokeAllSessions_eq. cbn [fst snd sessions with_sessions].
  split.
  - rewrite with_sessions_twice. f_equal. rewrite map_map.
    apply map_ext. intros s.
    destruct (sql_eq N.eqb (user_id s) userId) eqn:U;
      destruct (sql_eq String.eqb (device_info s) deviceType) eqn:D;
      destruct (sql_eq String.eqb (status s) "active") eqn:A;
      cbn [andb]; rewrite ?U, ?A; cbn [andb]; try reflexivity.
    cbn [set_status_revoked user_id status sql_eq].
    replace (String.eqb "revoked" "active") with false by reflexivity.
    now rewrite U.
  - apply filter_split_length.
    + intros s Hc. rewrite Hc.
      apply andb_true_iff in Hc. destruct Hc as [Hc A].
      apply andb_true_iff in Hc. destruct Hc as [U _].
      rewrite U, A. split; [reflexivity |].
      cbn [set_status_revoked user_id status sql_eq].
      replace (String.eqb "revoked" "active") with false by reflexivity.
      now rewrite U.
    + intros s Hc. rewrite Hc. split; reflexivity.
Qed.

(** ** Lookups and creation *)

(** X7. [getSessionById] is scoped by owner: it returns [null] exactly
    when no stored row has both that [id] and that [user_id], so a session
    of another user is as invisible as one that does not exist. *)
Theorem getSessionById_null_iff sessionId userId db :
  getSessionById sessionId userId db = None
  <-> forall s, In s (sessions db) -> id s = sessionId ->
                user_id s <> Some userId.
Proof.
  unfold getSessionById. split.
  - intros H s Hs Hid Hown.
    assert (Hin : In s (filter (fun x => N.eqb (id x) sessionId
                                         && sql_eq N.eqb (user_id x) userId)
                          (sessions db))).
    { apply filter_In. split; [exact Hs |].
      apply andb_true_iff. split; [now apply N.eqb_eq | now apply sql_eq_uuid]. }
    destruct (filter _ (sessions db)); [destruct Hin | discriminate].
  - intros H. rewrite filter_none; [reflexivity |].
    intros s Hs. destruct (N.eqb_spec (id s) sessionId) as [E | E];
      [| reflexivity].
    cbn [andb]. destruct (sql_eq N.eqb (user_id s) userId) eqn:U;
      [| reflexivity].
    apply sql_eq_uuid in U. destruct (H s Hs E U).
Qed.

Lemma existsb_false_iff {A : Type} (f : A -> bool) (l : list A) :
  existsb f l = false <-> forall x, In x l -> f x = false.
Proof.
  split; [apply existsb_false_In |].
  intros H. destruct (existsb f l) eqn:E; [| reflexivity].
  apply existsb_exists in E. destruct E as (x & Hx & Fx).
  rewrite (H x Hx) in Fx. discriminate.
Qed.

Lemma createSession_draws_64 cfg userId md (date_now now : timestamp)
  new_id e db :
  drawn (snd (createSession cfg userId md date_now now new_id e db))
  = drawn e + 64.
Proof.
  unfold createSession.
  change (generateSessionToken e)
    with (toString_hex (map (source e) (seq (drawn e) 64)),
          mkEntropy (source e) (drawn e + 64)).
  cbv iota beta.
  destruct (insert_session _ db); reflexivity.
Qed.

(** X8. [createSession] resolves only if the store could take the row
    under the keys of the [sessions] table: the drawn [id] and the
    generated token are carried by no stored row, and the user exists.
    The store then holds the rows it held and the new one, which is
    [active] and carries that token, and 64 bytes have been drawn from the
    random source. *)
Theorem createSession_resolves_only_if
  cfg userId md (date_now now : timestamp) new_id e db r db' :
  fst (createSession cfg userId md date_now now new_id e db)
  = Resolved (r, db') ->
  (forall s, In s (sessions db) -> id s <> new_id)
  /\ (forall s, In s (sessions db) ->
        session_token s <> fst (generateSessionToken e))
  /\ (exists u, In u (users db) /\ u_id u = userId)
  /\ (exists row,
         sessions db' = sessions db ++ [row]
         /\ id row = new_id
         /\ user_id row = Some userId
         /\ session_token row = fst (generateSessionToken e)
         /\ status row = Some "active"
         /\ c_session_token r = session_token row)
  /\ users db' = users db
  /\ drawn (snd (createSession cfg userId md date_now now new_id e db))
     = drawn e + 64.
Proof.
  intros H.
  destruct (createSession cfg userId md date_now now new_id e db)
    as [res e'] eqn:C.
  cbn [fst] in H. subst res.
  pose proof (createSession_draws_64 cfg userId md date_now now new_id e db)
    as D.
  rewrite C in D.
  apply createSession_inv in C.
  cbv zeta in C. destruct C as (Hr & Hdb & Hid & Htok & Hu).
  split; [| split; [| split; [| split; [| split]]]].
  - intros s Hs. apply N.eqb_neq. now apply Hid.
  - intros s Hs. apply String.eqb_neq. now apply Htok.
  - exact Hu.
  - eexists. subst db' r. split; [reflexivity |]. repeat split.
  - subst db'. reflexivity.
  - exact D.
Qed.

(** X9. Whatever [validateSession] returns is a stored row whose token is
    the one presented, whose [status] column holds that same string, which
    has not expired, and whose owner is the joined user. *)
Theorem validateSession_sound token (now : timestamp) db v :
  validateSession token now db = Some v ->
  exists t u,
    token = Js.Str t
    /\ t <> ""
    /\ In (v_session v) (sessions db)
    /\ session_token (v_session v) = t
    /\ status (v_session v) = Some t
    /\ (now < expires_at (v_session v))%Z
    /\ In u (users db)
    /\ user_id (v_session v) = Some (u_id u)
    /\ v_user_id v = u_id u
    /\ v_role v = u_role u.
Proof.
  unfold validateSession.
  destruct token as [| | t]; cbn [Js.truthy_field negb]; try discriminate.
  destruct (String.eqb_spec t "") as [E | E]; cbn [negb]; [discriminate |].
  cbn [Js.to_key].
  destruct (validateSession_query t now db) as [| row rest] eqn:Q;
    [discriminate |].
  intros H. injection H as <-.
  assert (Hin : In row (validateSession_query t now db))
    by (rewrite Q; now left).
  unfold validateSession_query in Hin.
  apply in_flat_map in Hin. destruct Hin as (s & Hs & Hrow).
  apply filter_In in Hs. destruct Hs as [Hs Hc].
  apply in_map_iff in Hrow. destruct Hrow as (u & <- & Hu).
  apply filter_In in Hu. destruct Hu as [Hu Hj].
  apply andb_true_iff in Hc. destruct Hc as [Hc Hexp].
  apply andb_true_iff in Hc. destruct Hc as [Htok Hst].
  exists t, u. cbn [v_session v_user_id v_role].
  repeat split; try assumption.
  - now apply String.eqb_eq.
  - now apply sql_eq_string.
  - now apply Z.ltb_lt.
  - now apply sql_eq_uuid.
Qed.

Lemma filter_map_frame {A : Type} (Q : A -> bool) (f : A -> A) (l : list A) :
  (forall x, Q (f x) = Q x) ->
  (forall x, Q x = true -> f x = x) ->
  filter Q (map f l) = filter Q l.
Proof.
  intros H1 H2. induction l as [| a l IH]; [reflexivity |].
  cbn [map filter]. rewrite H1. destruct (Q a) eqn:E; [| exact IH].
  rewrite (H2 a E), IH. reflexivity.
Qed.

Lemma other_owner (c : option uuid) (u u' : uuid) :
  u' <> u -> sql_eq N.eqb c u' = true -> sql_eq N.eqb c u = false.
Proof.
  intros Hne H. apply sql_eq_uuid in H. subst c. cbn.
  apply N.eqb_neq. exact Hne.
Qed.

(** X10. The three revocations asked by a user never touch a row of
    another user: the rows of every other user are the same before and after
    [revokeSession], [revokeAllSessions] and [revokeSessionsByType]. *)
Theorem revocations_leave_other_users
  userId other sessionId ex deviceType (now : timestamp) db :
  other <> userId ->
  sessions_of other (snd (revokeSession sessionId userId now db))
  = sessions_of other db
  /\ sessions_of other (snd (revokeAllSessions userId ex now db))
     = sessions_of other db
  /\ sessions_of other (snd (revokeSessionsByType userId deviceType now db))
     = sessions_of other db.
Proof.
  intros Hne.
  rewrite revokeSession_eq, revokeAllSessions_eq, revokeSessionsByType_eq.
  unfold sessions_of. cbn [snd sessions with_sessions].
  repeat split; apply filter_map_frame; intros s.
  - destruct (_ && _); reflexivity.
  - intros Q. rewrite (other_owner _ _ _ Hne Q).
    now rewrite andb_false_r.
  - destruct (_ && _); reflexivity.
  - intros Q. now rewrite (other_owner _ _ _ Hne Q).
  - destruct (_ && _); reflexivity.
  - intros Q. now rewrite (other_owner _ _ _ Hne Q).
Qed.

(** X11. The status [expired] is written by the sweep alone: if one call
    takes a stored session from another status to [expired], that call is
    [cleanupExpiredSessions], the session was [active], and its [expires_at]
    lay before the clock reading of the sweep. *)
Theorem expired_only_by_cleanup op db i st :
  status_of i db = Some st ->
  st <> Some "expired" ->
  status_of i (apply op db) = Some (Some "expired") ->
  exists now s,
    op = CleanupExpiredSessions now
    /\ session_by_id i db = Some s
    /\ status s = Some "active"
    /\ (expires_at s < now)%Z.
Proof.
  unfold status_of. intros H Hne Hafter.
  destruct (session_by_id i db) as [s |] eqn:Hs; [| discriminate].
  cbn [option_map] in H. injection H as Hst.
  assert (Hsame : option_map status (session_by_id i db)
                  <> Some (Some "expired")).
  { rewrite Hs. cbn. congruence. }
  destruct op; cbn [apply] in Hafter; try contradiction.
  - (* createSession *)
    exfalso.
    destruct (createSession cookie_max_age userId md date_now now new_id e db)
      as [res e'] eqn:C.
    cbn [fst] in Hafter. destruct res as [[r db'] | err]; [| contradiction].
    apply createSession_inv in C. cbv zeta in C. destruct C as (_ & -> & _).
    unfold session_by_id in Hafter, Hs. cbn [sessions with_sessions] in Hafter.
    rewrite (find_app_found _ _ _ _ Hs) in Hafter. cbn in Hafter. congruence.
  - (* updateSessionActivity *)
    exfalso. unfold updateSessionActivity in Hafter.
    rewrite session_by_id_update in Hafter by reflexivity.
    rewrite Hs in Hafter. cbn [option_map] in Hafter.
    destruct (N.eqb (id s) sessionId); cbn in Hafter; congruence.
  - (* revokeSession *)
    exfalso.
    change (snd (revokeSession sessionId userId now db))
      with (with_sessions db
              (fst (update_where
                      (fun x => N.eqb (id x) sessionId
                                && sql_eq N.eqb (user_id x) userId)
                      (set_status_revoked "revoked" now) (sessions db))))
      in Hafter.
    rewrite session_by_id_update in Hafter by reflexivity.
    rewrite Hs in Hafter. cbn [option_map] in Hafter.
    match type of Hafter with
    | context [if ?c then _ else _] => destruct c
    end; cbn in Hafter; unfold SESSION_STATUS_REVOKED in Hafter; congruence.
  - (* revokeAllSessions *)
    exfalso. unfold revokeAllSessions in Hafter.
    rewrite (surjective_pairing (update_where _ _ _)) in Hafter.
    cbn [snd] in Hafter.
    rewrite session_by_id_update in Hafter by reflexivity.
    rewrite Hs in Hafter. cbn [option_map] in Hafter.
    match type of Hafter with
    | context [if ?c then _ else _] => destruct c
    end; cbn in Hafter; unfold SESSION_STATUS_REVOKED in Hafter; congruence.
  - (* revokeSessionsByType *)
    exfalso. unfold revokeSessionsByType in Hafter.
    rewrite (surjective_pairing (update_where _ _ _)) in Hafter.
    cbn [snd] in Hafter.
    rewrite session_by_id_update in Hafter by reflexivity.
    rewrite Hs in Hafter. cbn [option_map] in Hafter.
    match type of Hafter with
    | context [if ?c then _ else _] => destruct c
    end; cbn in Hafter; unfold SESSION_STATUS_REVOKED in Hafter; congruence.
  - (* cleanupExpiredSessions *)
    unfold cleanupExpiredSessions in Hafter.
    rewrite (surjective_pairing (update_where _ _ _)) in Hafter.
    cbn [snd] in Hafter.
    rewrite session_by_id_update in Hafter by reflexivity.
    rewrite Hs in Hafter. cbn [option_map] in Hafter.
    destruct (sql_eq String.eqb (status s) SESSION_STATUS_ACTIVE
              && (expires_at s <? now)%Z) eqn:C;
      [| cbn in Hafter; congruence].
    apply andb_true_iff in C. destruct C as [A E].
    exists now, s. repeat split.
    + now apply sql_eq_string.
    + now apply Z.ltb_lt.
Qed.

(** ** Listing and pagination *)

Lemma length_insert_desc s sorted :
  List.length (insert_desc s sorted) = S (List.length sorted).
Proof.
  induction sorted as [| t rest IH]; [reflexivity |].
  cbn [insert_desc]. destruct (last_active_geb s t); simpl; [reflexivity |].
  now rewrite IH.
Qed.

Lemma length_order_by rows :
  List.length (order_by_last_active_desc rows) = List.length rows.
Proof.
  induction rows as [| a rows IH]; [reflexivity |].
  unfold order_by_last_active_desc in *. cbn [fold_right].
  rewrite length_insert_desc, IH. reflexivity.
Qed.

Lemma page_length (lim off n : Z) :
  (0 <= lim)%Z -> (0 <= off)%Z -> (0 <= n)%Z ->
  Z.of_nat (Nat.min (Z.to_nat lim) (Z.to_nat n - Z.to_nat off))
  = Z.max 0 (Z.min lim (n - off)).
Proof. intros. lia. Qed.

Lemma ceil_div_bounds (tot lim : Z) :
  (0 < lim)%Z ->
  (lim * ((tot + lim - 1) / lim - 1) < tot
   /\ tot <= lim * ((tot + lim - 1) / lim))%Z.
Proof.
  intros H.
  pose proof (Z.div_mod (tot + lim - 1) lim) as D.
  pose proof (Z.mod_pos_bound (tot + lim - 1) lim H) as B.
  assert (lim <> 0)%Z as Hne by lia. specialize (D Hne).
  set (q := ((tot + lim - 1) / lim)%Z) in *.
  set (m := ((tot + lim - 1) mod lim)%Z) in *.
  split; nia.
Qed.

(** X12. A resolved [getUserSessions] echoes [page] and [limit], counts in
    [total] all rows of the user that match the status filter, lists
    [min(limit, total - offset)] of them (none when the offset is past the
    end), and for a positive limit reports the least number of pages of
    that size that hold [total] rows. *)
Theorem getUserSessions_pagination userId opts db res :
  getUserSessions userId opts db = Resolved res ->
  let lim := default (opt_limit opts) 20%Z in
  let pg := default (opt_page opts) 1%Z in
  let tot :=
    Z.of_nat
      (List.length
         (filter (whereClause userId (default (opt_status opts) "active"))
            (sessions db))) in
  page (us_pagination res) = pg
  /\ limit (us_pagination res) = lim
  /\ total (us_pagination res) = tot
  /\ Z.of_nat (List.length (us_sessions res))
     = Z.max 0 (Z.min lim (tot - (pg - 1) * lim))
  /\ ((0 < lim)%Z ->
      exists p,
        pages (us_pagination res) = Int p
        /\ (lim * (p - 1) < tot /\ tot <= lim * p)%Z).
Proof.
  unfold getUserSessions, limit_offset. intros H. cbv zeta.
  set (lim := default (opt_limit opts) 20%Z) in *.
  set (pg := default (opt_page opts) 1%Z) in *.
  set (matching :=
         filter (whereClause userId (default (opt_status opts) "active"))
           (sessions db)) in *.
  destruct (lim <? 0)%Z eqn:L; [discriminate |].
  destruct ((pg - 1) * lim <? 0)%Z eqn:O; [discriminate |].
  injection H as <-. cbn [us_sessions us_pagination page limit total pages].
  apply Z.ltb_ge in L. apply Z.ltb_ge in O.
  split; [reflexivity | split; [reflexivity | split; [reflexivity | split]]].
  - rewrite length_map, length_firstn, length_skipn, length_map,
      length_order_by.
    rewrite <- (Nat2Z.id (List.length matching)) at 1.
    apply page_length; [exact L | exact O | apply Nat2Z.is_nonneg].
  - intros Hpos. unfold pages_of.
    replace (lim =? 0)%Z with false
      by (symmetry; apply Z.eqb_neq; intros E; rewrite E in Hpos;
          discriminate).
    eexists. split; [reflexivity |]. now apply ceil_div_bounds.
Qed.

(** X13. [getUserSessions] is rejected by the store whenever the limit is
    negative or the offset [(page - 1) * limit] is; in particular page 0
    with a positive limit is an error, not an empty page. *)
Theorem getUserSessions_rejects_negative userId opts db :
  (default (opt_limit opts) 20 < 0
   \/ (default (opt_page opts) 1 - 1) * default (opt_limit opts) 20 < 0)%Z ->
  exists err, getUserSessions userId opts db = Rejected err.
Proof.
  unfold getUserSessions, limit_offset.
  destruct (default (opt_limit opts) 20 <? 0)%Z eqn:L; [intros _; eauto |].
  apply Z.ltb_ge in L.
  destruct ((default (opt_page opts) 1 - 1) * default (opt_limit opts) 20
            <? 0)%Z eqn:O; [intros _; eauto |].
  apply Z.ltb_ge in O.
  intros [H | H]; [now apply Z.lt_nge in H | now apply Z.lt_nge in H].
Qed.

(** ** Activity *)

(** X14. [updateSessionActivity] does not look at the status: it stamps
    [last_active_at] on the row with that [id] also when the session is
    revoked or expired, and it changes no status and no count of
    [countActiveSessions]. *)
Theorem updateSessionActivity_effect sessionId (now : timestamp) db :
  (forall i,
      status_of i (updateSessionActivity sessionId now db) = status_of i db)
  /\ (forall userId t,
         countActiveSessions userId t (updateSessionActivity sessionId now db)
         = countActiveSessions userId t db)
  /\ (forall s,
         session_by_id sessionId db = Some s ->
         session_by_id sessionId (updateSessionActivity sessionId now db)
         = Some (set_last_active_at now s)).
Proof.
  unfold updateSessionActivity. split; [| split].
  - intros i. unfold status_of.
    rewrite session_by_id_update by reflexivity.
    destruct (session_by_id i db) as [s |]; [| reflexivity].
    cbn [option_map]. destruct (N.eqb (id s) sessionId); reflexivity.
  - intros userId t. unfold countActiveSessions.
    cbn [sessions with_sessions]. rewrite update_where_rows.
    apply filter_map_same_length. intros s.
    destruct (N.eqb (id s) sessionId); reflexivity.
  - intros s Hs. rewrite session_by_id_update by reflexivity.
    rewrite Hs. cbn [option_map].
    now rewrite (session_by_id_id _ _ _ Hs), N.eqb_refl.
Qed.

Lemma order_by_head (now : timestamp) rows :
  (forall x, In x rows ->
     exists t, last_active_at x = Some t /\ (t <= now)%Z) ->
  (exists x, In x rows /\ last_active_at x = Some now) ->
  exists h tl,
    order_by_last_active_desc rows = h :: tl
    /\ last_active_at h = Some now.
Proof.
  unfold order_by_last_active_desc.
  induction rows as [| a rows IH]; intros Hall Hmax.
  - destruct Hmax as (x & [] & _).
  - cbn [fold_right].
    destruct (Hall a (or_introl eq_refl)) as (ta & Ha & Hle).
    destruct (Z.eq_dec ta now) as [-> | Hne].
    + destruct (fold_right insert_desc [] rows) as [| t rest] eqn:S.
      * exists a, []. split; [reflexivity | exact Ha].
      * assert (Ht : In t rows).
        { apply In_order_by. unfold order_by_last_active_desc.
          rewrite S. now left. }
        destruct (Hall t (or_intror Ht)) as (tt & Et & Htt).
        cbn [insert_desc]. unfold last_active_geb. rewrite Ha, Et.
        rewrite (proj2 (Z.leb_le _ _) Htt).
        exists a, (t :: rest). split; [reflexivity | exact Ha].
    + assert (Hmax' : exists x, In x rows /\ last_active_at x = Some now).
      { destruct Hmax as (x & [<- | Hx] & Ex); [congruence | eauto]. }
      destruct (IH (fun x Hx => Hall x (or_intror Hx)) Hmax')
        as (h & tl & -> & Eh).
      cbn [insert_desc]. unfold last_active_geb. rewrite Ha, Eh.
      replace (now <=? ta)%Z with false
        by (symmetry; apply Z.leb_gt; lia).
      exists h, (insert_desc a tl). split; [reflexivity | exact Eh].
Qed.

(** X15. Most recently active first: after [updateSessionActivity] on a
    session of the user at a clock reading later than the last activity of
    the user's other sessions, the first page of [getUserSessions] over all
    statuses starts with that session. *)
Theorem touched_session_is_listed_first
  sessionId userId (now : timestamp) db s :
  In s (sessions db) ->
  id s = sessionId ->
  user_id s = Some userId ->
  (forall x, In x (sessions db) -> user_id x = Some userId ->
     id x <> sessionId ->
     exists t, last_active_at x = Some t /\ (t < now)%Z) ->
  exists res first rest,
    getUserSessions userId (mkOptions (Some "all") None None)
      (updateSessionActivity sessionId now db) = Resolved res
    /\ us_sessions res = first :: rest
    /\ l_id first = sessionId
    /\ l_last_active_at first = Some now.
Proof.
  intros Hin Hid Hown Hothers.
  unfold getUserSessions, updateSessionActivity.
  cbn [opt_status opt_page opt_limit default sessions with_sessions].
  rewrite update_where_rows.
  set (touch := fun x : sessions_row =>
                  if N.eqb (id x) sessionId
                  then set_last_active_at now x else x).
  set (matching := filter (whereClause userId "all") (map touch (sessions db))).
  assert (Hkeys : forall y, In y matching ->
            (id y = sessionId /\ last_active_at y = Some now)
            \/ (exists t, last_active_at y = Some t /\ (t < now)%Z)).
  { intros y Hy. apply filter_In in Hy. destruct Hy as [Hy Hw].
    apply in_map_iff in Hy. destruct Hy as (x & <- & Hx).
    unfold whereClause in Hw. apply andb_true_iff in Hw.
    destruct Hw as [Hw _]. apply sql_eq_uuid in Hw.
    unfold touch in *. destruct (N.eqb_spec (id x) sessionId) as [E | E].
    - left. split; [exact E | reflexivity].
    - right. now apply Hothers. }
  assert (Hs : In (touch s) matching).
  { apply filter_In. split; [now apply in_map |].
    unfold whereClause. apply andb_true_iff. split; [| reflexivity].
    apply sql_eq_uuid. unfold touch.
    destruct (N.eqb (id s) sessionId); exact Hown. }
  destruct (order_by_head now matching) as (h & tl & Eo & Eh).
  { intros y Hy. destruct (Hkeys y Hy) as [[_ E] | (t & E & Ht)].
    - exists now. split; [exact E | apply Z.le_refl].
    - exists t. split; [exact E | now apply Z.lt_le_incl]. }
  { exists (touch s). split; [exact Hs |].
    unfold touch. rewrite Hid, N.eqb_refl. reflexivity. }
  rewrite Eo. unfold limit_offset. cbn [Z.ltb Z.compare Z.mul Z.sub Z.add
    Z.opp Z.pos_sub Z.to_nat Pos.to_nat Pos.iter_op Nat.add skipn map firstn
    Z.succ_double Z.pred_double Z.double Pos.pred_double].
  eexists. eexists. eexists. split; [reflexivity |].
  cbn [us_sessions]. split; [reflexivity |].
  cbn [mask_listed select_listed l_id l_last_active_at].
  split; [| exact Eh].
  assert (Hh : In h matching).
  { apply In_order_by. rewrite Eo. now left. }
  destruct (Hkeys h Hh) as [[E _] | (t & E & Ht)]; [exact E |].
  rewrite Eh in E. injection E as <-. now apply Z.lt_irrefl in Ht.
Qed.

End SessionLaws.

(** * Properties of tokens and of the password reset service *)
Module ResetLaws.
Import Store SessionService PasswordReset SessionProofs.
Local Open Scope list_scope.

(** ** Tokens *)

(** X16. Every call to [generateResetToken] returns 64 characters, each of
    them in [[0-9a-f]] (32 random bytes in hex). *)
Theorem generateResetToken_64_lower_hex (e : entropy) :
  String.length (fst (generateResetToken e)) = 64
  /\ forallb is_lower_hex (list_ascii_of_string (fst (generateResetToken e)))
     = true.
Proof.
  change (fst (generateResetToken e))
    with (toString_hex (map (source e) (seq (drawn e) 32))).
  split.
  - rewrite toString_hex_length, length_map, length_seq. reflexivity.
  - apply toString_hex_alphabet.
Qed.

Lemma hex_alphabet_NoDup : NoDup hex_alphabet.
Proof.
  unfold hex_alphabet. cbn [list_ascii_of_string].
  repeat (constructor;
          [cbn [In]; intros H;
           repeat (destruct H as [H | H]; [discriminate H |]); exact H |]).
  constructor.
Qed.

Lemma hex_digit_inj (n m : N) :
  (n < 16)%N -> (m < 16)%N -> hex_digit n = hex_digit m -> n = m.
Proof.
  intros Hn Hm H. unfold hex_digit in H.
  apply N2Nat.inj.
  apply (proj1 (NoDup_nth hex_alphabet "0"%char) hex_alphabet_NoDup);
    [| | exact H].
  - change (List.length hex_alphabet) with (N.to_nat 16). lia.
  - change (List.length hex_alphabet) with (N.to_nat 16). lia.
Qed.

Lemma nibbles (n : N) :
  n = (16 * N.shiftr n 4 + N.land n 15)%N.
Proof.
  rewrite N.shiftr_div_pow2.
  change 15%N with (N.ones 4). rewrite N.land_ones.
  change (2 ^ 4)%N with 16%N.
  apply N.div_mod. discriminate.
Qed.

Lemma byte_to_hex_inj (a b : Byte.byte) :
  byte_to_hex a = byte_to_hex b -> a = b.
Proof.
  unfold byte_to_hex. intros H. injection H as H1 H2.
  pose proof (Byte.to_N_bounded a) as Ba.
  pose proof (Byte.to_N_bounded b) as Bb.
  assert (Hhi : N.shiftr (Byte.to_N a) 4 = N.shiftr (Byte.to_N b) 4).
  { apply hex_digit_inj; [| | exact H1];
      rewrite N.shiftr_div_pow2; change (2 ^ 4)%N with 16%N;
      apply N.Div0.div_lt_upper_bound; lia. }
  assert (Hlo : N.land (Byte.to_N a) 15 = N.land (Byte.to_N b) 15).
  { apply hex_digit_inj; [| | exact H2];
      change 15%N with (N.ones 4); rewrite N.land_ones;
      apply N.mod_lt; discriminate. }
  assert (E : Byte.to_N a = Byte.to_N b).
  { rewrite (nibbles (Byte.to_N a)), (nibbles (Byte.to_N b)).
    now rewrite Hhi, Hlo. }
  pose proof (Byte.of_to_N a) as Oa. pose proof (Byte.of_to_N b) as Ob.
  rewrite E in Oa. congruence.
Qed.

Lemma toString_hex_inj (b1 : list Byte.byte) : forall b2,
  toString_hex b1 = toString_hex b2 -> b1 = b2.
Proof.
  induction b1 as [| a b1 IH]; intros [| b b2] H.
  - reflexivity.
  - destruct (byte_to_hex_shape b) as (c1 & c2 & E & _).
    cbn [toString_hex] in H. rewrite E in H. discriminate.
  - destruct (byte_to_hex_shape a) as (c1 & c2 & E & _).
    cbn [toString_hex] in H. rewrite E in H. discriminate.
  - destruct (byte_to_hex_shape a) as (c1 & c2 & Ea & _).
    destruct (byte_to_hex_shape b) as (d1 & d2 & Eb & _).
    cbn [toString_hex] in H. rewrite Ea, Eb in H.
    cbn [append] in H. injection H as H1 H2 H3.
    f_equal.
    + apply byte_to_hex_inj. rewrite Ea, Eb. now subst.
    + now apply IH.
Qed.

(** X17. The hex encoding loses nothing: two session tokens are equal
    exactly when the 64 random bytes behind them are, so tokens collide
    only if the random source repeats itself. *)
Theorem generateSessionToken_equal_iff (e1 e2 : entropy) :
  fst (generateSessionToken e1) = fst (generateSessionToken e2)
  <-> map (source e1) (seq (drawn e1) 64) = map (source e2) (seq (drawn e2) 64).
Proof.
  rewrite !generateSessionToken_eq. split.
  - apply toString_hex_inj.
  - intros ->. reflexivity.
Qed.

Lemma substring_whole (s : string) :
  String.substring 0 (String.length s) s = s.
Proof.
  induction s as [| c s IH]; [reflexivity |].
  cbn [String.length String.substring]. now rewrite IH.
Qed.

(** X18. The mask hides nothing of a short token: for a token of at most 8
    characters both [substring] calls return the whole token, and the
    masked form is the token, three dots, and the token again. *)
Theorem mask_token_short (t : string) :
  String.length t <= 8 ->
  mask_token t = (t ++ "..." ++ t)%string.
Proof.
  intros H. unfold mask_token, js_substring_from, js_substring.
  assert (H8 : (Z.of_nat (String.length t) <= 8)%Z).
  { change 8%Z with (Z.of_nat 8). now apply Nat2Z.inj_le. }
  pose proof (Nat2Z.is_nonneg (String.length t)) as H0.
  rewrite (Z.max_l 0 0) by apply Z.le_refl.
  rewrite (Z.max_l 8 0) by discriminate.
  rewrite (Z.min_l 0 (Z.of_nat (String.length t))) by exact H0.
  rewrite (Z.min_r 8 (Z.of_nat (String.length t))) by exact H8.
  rewrite (Z.min_l 0 (Z.of_nat (String.length t))) by exact H0.
  rewrite (Z.max_r 0 (Z.of_nat (String.length t))) by exact H0.
  rewrite (Z.max_r (Z.of_nat (String.length t) - 8) 0)
    by (apply Z.le_sub_0; exact H8).
  rewrite (Z.max_l (Z.of_nat (String.length t)) 0) by exact H0.
  rewrite (Z.min_l 0 (Z.of_nat (String.length t))) by exact H0.
  rewrite (Z.min_l (Z.of_nat (String.length t)) (Z.of_nat (String.length t)))
    by apply Z.le_refl.
  rewrite (Z.min_l 0 (Z.of_nat (String.length t))) by exact H0.
  rewrite (Z.max_r 0 (Z.of_nat (String.length t))) by exact H0.
  rewrite Z.sub_0_r, Nat2Z.id. change (Z.to_nat 0) with 0.
  now rewrite substring_whole.
Qed.

(** ** Password reset *)

Section Reset.
Variable toLowerCase : string -> string.
Variable sha256_hex : string -> string.
Variable bcrypt_hash : string -> Z -> list Byte.byte -> string.

(** X19. [createResetRequest] looks the account up with the lowercased
    e-mail bound to both [email] and [status]: in a store where no account
    has its e-mail in its status column, every request resolves with the
    no-account message, issues no token and leaves store and random source
    as they were. *)
Theorem createResetRequest_needs_status_equal_email
  configured email (date_now now : timestamp) new_id e db :
  (forall a, In a (accounts db) -> a_status a <> Some (a_email a)) ->
  createResetRequest toLowerCase sha256_hex configured email date_now now
    new_id e db
  = (Resolved
       (NoAccount
          "If an account exists with this email, a password reset link will be sent."),
     db, e).
Proof.
  intros H. unfold createResetRequest.
  rewrite filter_none; [reflexivity |].
  intros a Ha.
  destruct (String.eqb_spec (a_email a) (toLowerCase email)) as [E | E];
    [| reflexivity].
  cbn [andb].
  destruct (sql_eq String.eqb (a_status a) (toLowerCase email)) eqn:S;
    [| reflexivity].
  apply sql_eq_string in S. rewrite <- E in S. destruct (H a Ha S).
Qed.

(** X20. A token that [verifyResetToken] accepts is backed by a stored,
    unused token row with the SHA-256 of the token, not past its
    [expires_at] on the caller's clock (the instant [expires_at] itself
    still counts), whose user is [active]; the answer names that user. *)
Theorem verifyResetToken_sound token (date_now : timestamp) db
  userId email name :
  verifyResetToken sha256_hex token date_now db = Valid userId email name ->
  exists t a,
    In t (reset_tokens db)
    /\ In a (accounts db)
    /\ t_token_hash t = sha256_hex token
    /\ t_used t = Some false
    /\ t_user_id t = Some (a_id a)
    /\ (date_now <= t_expires_at t)%Z
    /\ a_status a = Some "active"
    /\ userId = a_id a /\ email = a_email a /\ name = a_name a.
Proof.
  unfold verifyResetToken, hashToken.
  destruct (verifyResetToken_query (sha256_hex token) db)
    as [| [t a] rest] eqn:Q; [discriminate |].
  assert (Hin : In (t, a) (verifyResetToken_query (sha256_hex token) db))
    by (rewrite Q; now left).
  destruct (t_expires_at t <? date_now)%Z eqn:E; [discriminate |].
  destruct (sql_eq String.eqb (a_status a) "active") eqn:A;
    cbn [negb]; [| discriminate].
  intros H. injection H as <- <- <-.
  unfold verifyResetToken_query in Hin.
  apply in_flat_map in Hin. destruct Hin as (t' & Ht & Hpair).
  apply in_map_iff in Hpair. destruct Hpair as (a' & Ep & Ha).
  injection Ep as -> ->.
  apply filter_In in Ht. destruct Ht as [Ht Hc].
  apply filter_In in Ha. destruct Ha as [Ha Hj].
  apply andb_true_iff in Hc. destruct Hc as [Hh Hu].
  exists t, a. repeat split; try assumption.
  - now apply String.eqb_eq.
  - destruct (t_used t) as [[|] |]; cbn in Hu; congruence.
  - now apply sql_eq_uuid.
  - now apply Z.ltb_ge.
  - now apply sql_eq_string.
Qed.

(** X21. A reset token works once: after [resetPassword] has succeeded
    with a token, [verifyResetToken] rejects that token at every later call
    as invalid, because every row with its hash is marked used. *)
Theorem resetPassword_single_use
  configured token newPassword salt (date_now now later : timestamp)
  db message db' :
  resetPassword sha256_hex bcrypt_hash configured token newPassword salt
    date_now now db = (ResetDone message, db') ->
  verifyResetToken sha256_hex token later db'
  = Invalid "Invalid or expired reset token".
Proof.
  unfold resetPassword.
  destruct (verifyResetToken sha256_hex token date_now db)
    as [err | uid em nm]; [discriminate |].
  intros H. injection H as _ <-.
  unfold verifyResetToken, verifyResetToken_query, hashToken.
  cbn [reset_tokens accounts].
  rewrite filter_none; [reflexivity |].
  intros t' Ht'. apply in_map_iff in Ht'. destruct Ht' as (t & <- & _).
  destruct (String.eqb (t_token_hash t) (sha256_hex token)) eqn:E.
  - cbn [mark_used t_token_hash t_used sql_eq]. now rewrite andb_false_r.
  - now rewrite E.
Qed.

Lemma filter_length_split {A : Type} (P : A -> bool) (l : list A) :
  List.length (filter P l) + List.length (filter (fun x => negb (P x)) l)
  = List.length l.
Proof.
  induction l as [| a l IH]; [reflexivity |].
  cbn [filter]. destruct (P a); cbn [negb List.length]; lia.
Qed.

(** X22. [cleanupExpiredTokens] deletes exactly the token rows whose
    [expires_at] lies before the clock reading and keeps every other row;
    its result is the number of rows deleted; accounts are untouched; and
    running it again at the same reading deletes nothing. *)
Theorem cleanupExpiredTokens_spec (now : timestamp) db :
  (forall t, In t (reset_tokens (snd (cleanupExpiredTokens now db)))
             <-> In t (reset_tokens db) /\ (now <= t_expires_at t)%Z)
  /\ fst (cleanupExpiredTokens now db)
     + List.length (reset_tokens (snd (cleanupExpiredTokens now db)))
     = List.length (reset_tokens db)
  /\ accounts (snd (cleanupExpiredTokens now db)) = accounts db
  /\ cleanupExpiredTokens now (snd (cleanupExpiredTokens now db))
     = (0, snd (cleanupExpiredTokens now db)).
Proof.
  unfold cleanupExpiredTokens. cbn [fst snd reset_tokens accounts].
  split; [| split; [| split]].
  - intros t. rewrite filter_In, negb_true_iff, Z.ltb_ge. reflexivity.
  - apply filter_length_split.
  - reflexivity.
  - assert (Hkept : forall t,
               In t (filter (fun x => negb (t_expires_at x <? now)%Z)
                       (reset_tokens db)) ->
               (t_expires_at t <? now)%Z = false).
    { intros t Ht. apply filter_In in Ht. now apply negb_true_iff. }
    rewrite (filter_none _ _ Hkept). f_equal. f_equal.
    clear Hkept. induction (reset_tokens db) as [| a l IH]; [reflexivity |].
    cbn [filter]. destruct (t_expires_at a <? now)%Z eqn:E; cbn [negb].
    + exact IH.
    + cbn [filter]. rewrite E. cbn [negb]. now rewrite IH.
Qed.

Lemma query_head_survives (keep : reset_token -> bool) hashedToken db t a rest :
  verifyResetToken_query hashedToken db = (t, a) :: rest ->
  keep t = true ->
  exists rest',
    verifyResetToken_query hashedToken
      (mkResetDb (accounts db) (filter keep (reset_tokens db)))
    = (t, a) :: rest'.
Proof.
  unfold verifyResetToken_query. cbn [accounts reset_tokens].
  induction (reset_tokens db) as [| x l IH]; [discriminate |].
  cbn [filter].
  destruct (String.eqb (t_token_hash x) hashedToken
            && sql_eq Bool.eqb (t_used x) false) eqn:C.
  - cbn [flat_map].
    destruct (filter (fun a0 => sql_eq N.eqb (t_user_id x) (a_id a0))
                (accounts db)) as [| a0 as0] eqn:J.
    + cbn [map app]. intros H K. destruct (keep x).
      * cbn [filter]. rewrite C. cbn [flat_map]. rewrite J.
        cbn [map app]. now apply IH.
      * now apply IH.
    + cbn [map app]. intros H K. injection H as -> -> _.
      rewrite K. cbn [filter]. rewrite C. cbn [flat_map]. rewrite J.
      cbn [map app]. eauto.
  - intros H K. destruct (keep x).
    + cbn [filter]. rewrite C. now apply IH.
    + now apply IH.
Qed.

(** X23. The sweep never takes away a token that is still good: a token
    that [verifyResetToken] accepts at some clock reading is accepted, with
    the same answer, after [cleanupExpiredTokens] at that reading. *)
Theorem cleanupExpiredTokens_keeps_valid token (now : timestamp) db
  userId email name :
  verifyResetToken sha256_hex token now db = Valid userId email name ->
  verifyResetToken sha256_hex token now (snd (cleanupExpiredTokens now db))
  = Valid userId email name.
Proof.
  unfold verifyResetToken, hashToken, cleanupExpiredTokens. cbn [snd].
  destruct (verifyResetToken_query (sha256_hex token) db)
    as [| [t a] rest] eqn:Q; [discriminate |].
  destruct (t_expires_at t <? now)%Z eqn:E; [discriminate |].
  intros H.
  destruct (query_head_survives
              (fun x => negb (t_expires_at x <? now)%Z)
              (sha256_hex token) db t a rest Q) as (rest' & ->).
  { now rewrite E. }
  now rewrite E.
Qed.

(** X24. A resolved reset request that found the account leaves that user
    with exactly one token row: the new one, unused, holding the SHA-256 of
    the token handed out and expiring [expiresIn] seconds after the call;
    every earlier token of the user is gone, and the accounts are
    untouched. *)
Theorem createResetRequest_supersedes
  configured email (date_now now : timestamp) new_id e db
  message userId userName resetToken expiresIn expiresAt db' e' :
  createResetRequest toLowerCase sha256_hex configured email date_now now
    new_id e db
  = (Resolved (LinkSent message userId userName resetToken expiresIn
                 expiresAt), db', e') ->
  filter (fun t => sql_eq N.eqb (t_user_id t) userId) (reset_tokens db')
  = [ mkResetToken new_id (Some userId) (sha256_hex resetToken) expiresAt
        (Some false) None (Some now) ]
  /\ expiresAt = (date_now + expiresIn * 1000)%Z
  /\ expiresIn = reset_expires_in configured
  /\ resetToken = fst (generateResetToken e)
  /\ accounts db' = accounts db.
Proof.
  unfold createResetRequest.
  destruct (filter _ (accounts db)) as [| user others]; [discriminate |].
  destruct (generateResetToken e) as [raw e1] eqn:G.
  unfold insert_reset_token. cbn [reset_tokens accounts t_id t_token_hash].
  destruct (existsb _ _); [discriminate |].
  destruct (existsb _ _); [discriminate |].
  intros H. injection H as <- <- <- <- <- <- <- <-.
  cbn [reset_tokens accounts fst]. repeat split.
  rewrite filter_app. cbn [filter t_user_id sql_eq].
  rewrite N.eqb_refl.
  rewrite filter_none; [reflexivity |].
  intros t Ht. apply filter_In in Ht. destruct Ht as [_ Ht].
  now apply negb_true_iff.
Qed.

End Reset.

End ResetLaws.

(** * Further properties of the RBAC decision functions and gates *)
Module RbacLaws.
Import Js Rbac Gates RbacProofs.
Local Open Scope list_scope.

(** ** Levels *)






(** ** The minimum-role gate with a known minimum *)





(** ** Permission tests and gates over the table as shipped *)

(** X28. No permission test ever grants: [userHasPermission],
    [userHasAnyPermission] and [userHasAllPermissions] give the same answer
    whatever is asked, [false] from the guard for a missing user or a
    falsy role and the [ReferenceError] of the permission lookup for every
    other user; [roleHasPermission] throws for every role. *)
Theorem permission_tests_never_grant
  (u : option user) (role p : string) (ps : list string) :
  let answer :=
    match u with
    | Some x =>
        if truthy_field (user_role x) then Throw ReferenceError
        else Return false
    | None => Return false
    end in
  userHasPermission u p = answer
  /\ userHasAnyPermission u ps = answer
  /\ userHasAllPermissions u ps = answer
  /\ roleHasPermission role p = Throw ReferenceError
  /\ answer <> Return true.
Proof.
  cbv zeta. destruct u as [x |].
  - rewrite userHasPermission_guard_or_throw,
      userHasAnyPermission_guard_or_throw,
      userHasAllPermissions_guard_or_throw.
    repeat split. destruct (truthy_field (user_role x)); discriminate.
  - repeat split. discriminate.
Qed.



End RbacLaws.

(** * The further properties at sample inputs *)
Module LawWitnesses.
Import Js Store SessionService Invariants Examples CallExamples.
Local Open Scope list_scope.

Ltac distinct :=
  repeat (constructor; [cbn [In map]; intuition discriminate |]);
  constructor.

Lemma two_devices_unique : unique_keys two_devices.
Proof. split; cbv [two_devices sessions map active_row revoked_row id session_token]; distinct. Qed.

Lemma unique_keys_along_witness :
  unique_keys (run sample_calls two_devices).
Proof.
  apply (SessionLaws.unique_keys_along sample_calls two_devices).
  exact two_devices_unique.
Defined.

Lemma session_identity_kept_along_witness :
  exists s',
    session_by_id 20 (run sample_calls two_devices) = Some s'
    /\ same_identity (active_row 20 "aaaaaaaaaaaaaaaa") s'.
Proof.
  apply (SessionLaws.session_identity_kept_along sample_calls two_devices 20).
  reflexivity.
Defined.

Lemma countActiveSessions_grows_only_by_create_witness :
  countActiveSessions 1 1000 (run quiet_calls two_devices)
  <= countActiveSessions 1 1000 two_devices.
Proof.
  apply (SessionLaws.countActiveSessions_grows_only_by_create
           quiet_calls two_devices 1%N 1000%Z).
  repeat constructor.
Defined.

Lemma cleanupExpiredSessions_idempotent_witness :
  cleanupExpiredSessions 9000
    (snd (cleanupExpiredSessions 9500 two_devices))
  = (0, snd (cleanupExpiredSessions 9500 two_devices)).
Proof.
  apply (SessionLaws.cleanupExpiredSessions_idempotent 9500%Z 9000%Z).
  discriminate.
Defined.

Lemma cleanupExpiredSessions_keeps_counts_witness :
  countActiveSessions 1 9800 (snd (cleanupExpiredSessions 9500 two_devices))
  = countActiveSessions 1 9800 two_devices.
Proof.
  apply (SessionLaws.cleanupExpiredSessions_keeps_counts 9500%Z 9800%Z).
  discriminate.
Defined.

Lemma validateSession_sound_witness :
  exists t u,
    Str "active" = Str t
    /\ t <> ""
    /\ In (active_row 5 "active") (sessions word_token_store)
    /\ session_token (active_row 5 "active") = t
    /\ status (active_row 5 "active") = Some t
    /\ (2000 < expires_at (active_row 5 "active"))%Z
    /\ In u (users word_token_store)
    /\ user_id (active_row 5 "active") = Some (u_id u)
    /\ 1%N = u_id u
    /\ Some "user" = u_role u.
Proof.
  apply (SessionLaws.validateSession_sound (Str "active") 2000%Z
           word_token_store
           (mkValidated (active_row 5 "active") 1 "Ada" "ada@example.com"
              (Some "user") (Some "active"))).
  reflexivity.
Defined.

Lemma revocations_leave_other_users_witness :
  sessions_of 1 (snd (revokeSession 20 2 300 two_devices))
  = sessions_of 1 two_devices
  /\ sessions_of 1 (snd (revokeAllSessions 2 None 300 two_devices))
     = sessions_of 1 two_devices
  /\ sessions_of 1 (snd (revokeSessionsByType 2 "phone" 300 two_devices))
     = sessions_of 1 two_devices.
Proof.
  apply (SessionLaws.revocations_leave_other_users
           2%N 1%N 20%N None "phone" 300%Z two_devices).
  discriminate.
Defined.

Lemma expired_only_by_cleanup_witness :
  exists now s,
    CleanupExpiredSessions 9500 = CleanupExpiredSessions now
    /\ session_by_id 20 two_devices = Some s
    /\ status s = Some "active"
    /\ (expires_at s < now)%Z.
Proof.
  apply (SessionLaws.expired_only_by_cleanup
           (CleanupExpiredSessions 9500) two_devices 20%N (Some "active"));
    [reflexivity | discriminate | reflexivity].
Defined.

Lemma createSession_resolves_only_if_witness :
  exists r db',
    fst (createSession None 1 no_metadata 1000 1000 7 counting_entropy
           two_devices) = Resolved (r, db')
    /\ (forall s, In s (sessions two_devices) -> id s <> 7%N)
    /\ (forall s, In s (sessions two_devices) ->
          session_token s <> fst (generateSessionToken counting_entropy))
    /\ (exists u, In u (users two_devices) /\ u_id u = 1%N)
    /\ (exists row,
           sessions db' = sessions two_devices ++ [row]
           /\ id row = 7%N
           /\ user_id row = Some 1%N
           /\ session_token row = fst (generateSessionToken counting_entropy)
           /\ status row = Some "active"
           /\ c_session_token r = session_token row)
    /\ users db' = users two_devices
    /\ drawn (snd (createSession None 1 no_metadata 1000 1000 7
                     counting_entropy two_devices))
       = drawn counting_entropy + 64.
Proof.
  eexists. eexists. split; [reflexivity |].
  eapply (SessionLaws.createSession_resolves_only_if None 1%N no_metadata
            1000%Z 1000%Z 7%N counting_entropy two_devices).
  reflexivity.
Defined.

Lemma getUserSessions_rejects_negative_witness :
  exists err,
    getUserSessions 1 (mkOptions None (Some 0%Z) None) two_devices
    = Rejected err.
Proof.
  apply (SessionLaws.getUserSessions_rejects_negative 1%N
           (mkOptions None (Some 0%Z) None) two_devices).
  right. reflexivity.
Defined.

Lemma getUserSessions_pagination_witness :
  exists res,
    getUserSessions 1 (mkOptions (Some "all") (Some 2%Z) (Some 2%Z))
      two_devices = Resolved res
    /\ page (us_pagination res) = 2%Z
    /\ limit (us_pagination res) = 2%Z
    /\ total (us_pagination res) = 3%Z
    /\ Z.of_nat (List.length (us_sessions res)) = 1%Z
    /\ ((0 < 2)%Z ->
        exists p,
          pages (us_pagination res) = Int p
          /\ (2 * (p - 1) < 3 /\ 3 <= 2 * p)%Z).
Proof.
  eexists. split; [reflexivity |].
  eapply (SessionLaws.getUserSessions_pagination 1%N
            (mkOptions (Some "all") (Some 2%Z) (Some 2%Z)) two_devices).
  reflexivity.
Defined.

Lemma updateSessionActivity_effect_witness :
  session_by_id 10 (updateSessionActivity 10 200 store_with_revoked)
  = Some (set_last_active_at 200 revoked_row).
Proof.
  apply (proj2 (proj2 (SessionLaws.updateSessionActivity_effect
                         10%N 200%Z store_with_revoked))).
  reflexivity.
Defined.

Lemma touched_session_is_listed_first_witness :
  exists res first rest,
    getUserSessions 1 (mkOptions (Some "all") None None)
      (updateSessionActivity 21 500 two_devices) = Resolved res
    /\ us_sessions res = first :: rest
    /\ l_id first = 21%N
    /\ l_last_active_at first = Some 500%Z.
Proof.
  apply (SessionLaws.touched_session_is_listed_first
           21%N 1%N 500%Z two_devices (active_row 21 "bbbbbbbbbbbbbbbb")).
  - right. left. reflexivity.
  - reflexivity.
  - reflexivity.
  - intros x Hx Hu Hid.
    destruct Hx as [<- | [<- | [<- | [<- | []]]]];
      exists 40%Z; split; reflexivity.
Defined.

Lemma mask_token_short_witness :
  mask_token "abc" = "abc...abc".
Proof.
  apply (ResetLaws.mask_token_short "abc"). repeat constructor.
Defined.

Section ResetWitnesses.
Import PasswordReset ResetExamples.

Lemma createResetRequest_needs_status_equal_email_witness :
  createResetRequest same_case toy_digest None "bob@example.com" 1000 1000 60
    counting_entropy only_bob
  = (Resolved
       (NoAccount
          "If an account exists with this email, a password reset link will be sent."),
     only_bob, counting_entropy).
Proof.
  apply (ResetLaws.createResetRequest_needs_status_equal_email
           same_case toy_digest None "bob@example.com" 1000%Z 1000%Z 60%N
           counting_entropy only_bob).
  intros a [<- | []]. discriminate.
Defined.

Lemma verifyResetToken_sound_witness :
  exists t a,
    In t (reset_tokens only_bob)
    /\ In a (accounts only_bob)
    /\ t_token_hash t = toy_digest "token-of-bob"
    /\ t_used t = Some false
    /\ t_user_id t = Some (a_id a)
    /\ (5000 <= t_expires_at t)%Z
    /\ a_status a = Some "active"
    /\ 2%N = a_id a /\ "bob@example.com" = a_email a /\ "Bob" = a_name a.
Proof.
  apply (ResetLaws.verifyResetToken_sound toy_digest "token-of-bob" 5000%Z
           only_bob 2%N "bob@example.com" "Bob").
  reflexivity.
Defined.

Lemma resetPassword_single_use_witness :
  exists db',
    resetPassword toy_digest toy_bcrypt None "token-of-bob" "new password" []
      4000 4000 only_bob
    = (ResetDone "Password reset successfully", db')
    /\ verifyResetToken toy_digest "token-of-bob" 4001 db'
       = Invalid "Invalid or expired reset token".
Proof.
  eexists. split; [reflexivity |].
  eapply (ResetLaws.resetPassword_single_use toy_digest toy_bcrypt None
            "token-of-bob" "new password" [] 4000%Z 4000%Z 4001%Z only_bob).
  reflexivity.
Defined.

Lemma cleanupExpiredTokens_keeps_valid_witness :
  verifyResetToken toy_digest "token-of-bob" 4000
    (snd (cleanupExpiredTokens 4000 bob_and_eve))
  = Valid 2 "bob@example.com" "Bob".
Proof.
  apply (ResetLaws.cleanupExpiredTokens_keeps_valid toy_digest
           "token-of-bob" 4000%Z bob_and_eve).
  reflexivity.
Defined.

Lemma createResetRequest_supersedes_witness :
  exists resetToken db' e',
    createResetRequest same_case toy_digest None "active" 1000 1000 60
      counting_entropy bob_and_eve
    = (Resolved (LinkSent "Password reset link sent" 3 "Eve" resetToken
                   3600 3601000), db', e')
    /\ filter (fun t => sql_eq N.eqb (t_user_id t) 3%N) (reset_tokens db')
       = [ mkResetToken 60 (Some 3%N) (toy_digest resetToken) 3601000
             (Some false) None (Some 1000%Z) ]
    /\ 3601000%Z = (1000 + 3600 * 1000)%Z
    /\ 3600%Z = reset_expires_in None
    /\ resetToken = fst (generateResetToken counting_entropy)
    /\ accounts db' = accounts bob_and_eve.
Proof.
  eexists. eexists. eexists. split; [reflexivity |].
  eapply (ResetLaws.createResetRequest_supersedes same_case toy_digest None
            "active" 1000%Z 1000%Z 60%N counting_entropy bob_and_eve).
  reflexivity.
Defined.

End ResetWitnesses.

Section RbacWitnesses.
Import Rbac Gates.




End RbacWitnesses.

End LawWitnesses.

(** * Properties of the error handler *)
Module ErrorLaws.
Import Js ErrorMiddleware.
Local Open Scope list_scope.

(** X30. The error handler keeps internals to itself: a stack trace
    reaches the response only in debug mode and only for an error that is
    not operational; and without debug mode the message of an error that is
    not operational never reaches the response, which then carries one of
    the handler's own fixed texts. *)
Theorem errorHandler_hides_internals
  (detail : Type) (debug : bool) (err : js_error detail) :
  (r_stack (errorHandler debug err) <> None ->
   debug = true /\ e_isOperational err = false)
  /\ (debug = false -> e_isOperational err = false ->
      In (r_message (errorHandler debug err)) fixed_messages).
Proof.
  unfold errorHandler, formatErrorResponse. split.
  - destruct (e_isOperational err); [cbn; congruence |].
    destruct (e_array err); [cbn; congruence |].
    repeat match goal with
           | |- context [if code_is ?f ?s then _ else _] =>
               destruct (code_is f s); [cbn; congruence |]
           end.
    destruct debug; cbn; [intros _; now split | congruence].
  - intros -> ->.
    destruct (e_array err); [cbn; tauto |].
    repeat match goal with
           | |- context [if code_is ?f ?s then _ else _] =>
               destruct (code_is f s); [cbn; tauto |]
           end.
    cbn. tauto.
Qed.

End ErrorLaws.
